(** * Deepfake-recognition backend: PPG analysis and score fusion

    A shallow embedding of [backend/app/ppg.py] and of the scoring part of
    [backend/app/main.py], together with the properties the design document
    states about them.

    Conventions of the embedding.
    - A Python [float] is a real number ([R]); rounding error of binary64
      arithmetic is outside the model.
    - A [uint8] colour channel is a [byte]; pixel coordinates and the fields
      of a bounding box are integers ([Z]).
    - [collections.deque(maxlen=n)] is a list, oldest element first.
    - The analyzer's [_sessions] dictionary is a [gmap string PPGSession];
      a method that mutates it takes the store and returns the new one. *)

From Stdlib Require Import Reals Lra Lia ZArith QArith List.
From Stdlib.Strings Require Import Byte Ascii String.
From stdpp Require Import gmap strings list fin_maps.

Local Open Scope R_scope.

(** ** Numeric primitives (the parts of NumPy the code calls) *)

Module Numpy.

(** [a.sum()] *)
Definition sum (a : list R) : R := foldr Rplus 0 a.

(** [a.mean()]: the sum divided by the number of elements. *)
Definition mean (a : list R) : R := sum a / INR (length a).

(** [a.std()]: population standard deviation,
    [sqrt(mean(abs(a - a.mean())**2))]. *)
Definition std (a : list R) : R :=
  let m := mean a in
  sqrt (mean (map (fun x => Rsqr (Rabs (x - m))) a)).

(** [np.clip(x, lo, hi)] is [minimum(maximum(x, lo), hi)]. *)
Definition clip (x lo hi : R) : R := Rmin (Rmax x lo) hi.

(** Complex numbers as (real, imaginary) pairs; [np.abs] on them. *)
Definition complex : Type := R * R.
Definition cabs (z : complex) : R := sqrt (Rsqr (fst z) + Rsqr (snd z)).

(** Bin [k] of the discrete Fourier transform of [x]:
    [sum_t x[t] * exp(-2 pi i k t / n)]. *)
Definition dft_bin (x : list R) (k : nat) : complex :=
  let n := length x in
  (sum (imap (fun t xt => xt * cos (2 * PI * INR k * INR t / INR n)) x),
   - sum (imap (fun t xt => xt * sin (2 * PI * INR k * INR t / INR n)) x)).

(** [np.fft.rfft(x)]: the bins [0 .. n/2] of the transform of a real
    input.  (NumPy raises on an empty input; [analyze] only reaches this
    with at least [MIN_FRAMES] samples.) *)
Definition rfft (x : list R) : list complex :=
  map (dft_bin x) (seq 0 (length x / 2 + 1)).

(** [np.fft.rfftfreq(n, d)]: [k / (n * d)] for [k = 0 .. n/2]. *)
Definition rfftfreq (n : nat) (d : R) : list R :=
  map (fun k => INR k / (INR n * d)) (seq 0 (n / 2 + 1)).

(** [a[mask]]: the elements of [a] at the positions where [mask] holds. *)
Definition select {A} (a : list A) (mask : list bool) : list A :=
  map fst (filter (fun p => snd p = true) (zip a mask)).

End Numpy.

(** ** Python built-ins on numbers *)

#[global] Instance Rle_decision : RelDecision Rle := Rle_dec.
#[global] Instance Rlt_decision : RelDecision Rlt := Rlt_dec.

(** [int(q)] on an exact rational: truncation toward zero. *)
Definition int (q : Q) : Z := Z.quot (Qnum q) (Z.pos (Qden q)).

(** The integer nearest to [y], a tie going to the even neighbour. *)
Definition round_half_even (y : R) : Z :=
  let f := Int_part y in
  let d := y - IZR f in
  if decide (d < 1 / 2) then f
  else if decide (1 / 2 < d) then (f + 1)%Z
  else if Z.even f then f else (f + 1)%Z.

(** [round(x, ndigits)]: the nearest multiple of [10 ** -ndigits]. *)
Definition round (x : R) (ndigits : nat) : R :=
  IZR (round_half_even (x * 10 ^ ndigits)) / 10 ^ ndigits.

(** ** [collections.deque] with a maximum length *)

Definition deque (A : Type) : Type := list A.

(** [d.append(x)]: [x] goes to the right end; when that makes the deque
    longer than [maxlen], one element is dropped from the left end. *)
Definition deque_append {A} (maxlen : nat) (d : deque A) (x : A) : deque A :=
  let d' := d ++ [x] in
  if decide (maxlen < length d')%nat then tail d' else d'.

(** ** [class PPGSession] *)

Definition MAX_LEN : nat := 300.

Record PPGSession : Type := mkPPGSession {
  r : deque R;
  g : deque R;
  b : deque R;
}.

(** [PPGSession.__init__] *)
Definition PPGSession_init : PPGSession :=
  {| r := []; g := []; b := [] |}.

(** [PPGSession.append] *)
Definition append (self : PPGSession) (rv gv bv : R) : PPGSession :=
  {| r := deque_append MAX_LEN (r self) rv;
     g := deque_append MAX_LEN (g self) gv;
     b := deque_append MAX_LEN (b self) bv |}.

(** [PPGSession.as_array] *)
Definition as_array (self : PPGSession) : list R * list R * list R :=
  (r self, g self, b self).

(** [PPGSession.__len__] *)
Definition len (self : PPGSession) : nat := length (r self).

(** ** Frames and bounding boxes *)

(** One pixel of an OpenCV frame, channels in B, G, R order. *)
Record Pixel : Type := mkPixel { blue : byte; green : byte; red : byte }.

(** An [H x W x 3] [uint8] array: its shape and its pixel at row [y],
    column [x] (only positions inside the shape are ever read). *)
Record Frame : Type := mkFrame {
  shape_h : nat;
  shape_w : nat;
  pixel : nat -> nat -> Pixel;
}.

(** A face bounding box is a dictionary with integer values. *)
Abbreviation BBox := (gmap string Z).

(** [.astype(np.float64)] on a channel value. *)
Definition to_float (c : byte) : R := IZR (Z.of_N (Byte.to_N c)).

(** [img[y1:y2, x1:x2]] for [0 <= y1], [y2 <= H], [0 <= x1], [x2 <= W],
    flattened row by row. *)
Definition slice (img : Frame) (y1 y2 x1 x2 : Z) : list Pixel :=
  flat_map
    (fun y => map (fun x => pixel img y x)
                  (seq (Z.to_nat x1) (Z.to_nat (x2 - x1))))
    (seq (Z.to_nat y1) (Z.to_nat (y2 - y1))).

(** ** [class PPGAnalyzer] *)

Definition FPS : R := 30.
Definition MIN_FRAMES : nat := 60.
Definition FOREHEAD_FRAC_Y : Q := 0.15%Q.
Definition FOREHEAD_FRAC_X : Q * Q := (0.25%Q, 0.75%Q).

(** [dict.get(key, default)] *)
Definition get (d : BBox) (key : string) (default : Z) : Z :=
  match d !! key with Some v => v | None => default end.

(** The bounding box the extraction works with: the fields of [face_bbox]
    when it is a non-empty dictionary (a missing field takes its default),
    the whole frame when it is [None] or empty. *)
Definition resolve_bbox (img_bgr : Frame) (face_bbox : option BBox)
  : Z * Z * Z * Z :=
  let h_img := Z.of_nat (shape_h img_bgr) in
  let w_img := Z.of_nat (shape_w img_bgr) in
  match face_bbox with
  | Some d =>
      if decide (d = ∅) then (0, 0, w_img, h_img)%Z
      else (get d "x" 0, get d "y" 0, get d "w" w_img, get d "h" h_img)
  | None => (0, 0, w_img, h_img)%Z
  end.

(** The clamped forehead region [(roi_y1, roi_y2, roi_x1, roi_x2)]. *)
Definition forehead_roi (img_bgr : Frame) (face_bbox : option BBox)
  : Z * Z * Z * Z :=
  let h_img := Z.of_nat (shape_h img_bgr) in
  let w_img := Z.of_nat (shape_w img_bgr) in
  let '(fx, fy, fw, fh) := resolve_bbox img_bgr face_bbox in
  let roi_y1 := fy in
  let roi_y2 := (fy + Z.max 1 (int (inject_Z fh * FOREHEAD_FRAC_Y)))%Z in
  let roi_x1 := (fx + int (inject_Z fw * fst FOREHEAD_FRAC_X))%Z in
  let roi_x2 := (fx + int (inject_Z fw * snd FOREHEAD_FRAC_X))%Z in
  (Z.max 0 roi_y1, Z.min h_img roi_y2, Z.max 0 roi_x1, Z.min w_img roi_x2).

(** [PPGAnalyzer._extract_forehead_rgb].  The [except] branch of the method
    cannot be taken for a frame of shape [H x W x 3] and a box with integer
    fields, so [None] here is the explicit [return None] of the method.
    [int(fh * 0.15)] and the like are computed on exact rationals. *)
Definition _extract_forehead_rgb (img_bgr : Frame) (face_bbox : option BBox)
  : option (R * R * R) :=
  let '(roi_y1, roi_y2, roi_x1, roi_x2) := forehead_roi img_bgr face_bbox in
  if decide (roi_y2 <= roi_y1 \/ roi_x2 <= roi_x1)%Z then None
  else
    let roi := slice img_bgr roi_y1 roi_y2 roi_x1 roi_x2 in
    let bm := Numpy.mean (map (fun p => to_float (blue p)) roi) in
    let gm := Numpy.mean (map (fun p => to_float (green p)) roi) in
    let rm := Numpy.mean (map (fun p => to_float (red p)) roi) in
    Some (rm, gm, bm).

(** [PPGAnalyzer._compute_score], one definition per local variable of the
    method, in the order of the code.  The three channel arrays have the
    same length whenever [analyze] calls the method; the element-wise
    operations pair the channels position by position. *)
Module ComputeScore.
Section Locals.
Variable session : PPGSession.

(* r, g, b = session.as_array(): the three channels of the session *)

(* Normalise channels *)
Definition r_n : list R :=
  map (fun x => x / (Numpy.mean (r session) + 1e-6)) (r session).
Definition g_n : list R :=
  map (fun x => x / (Numpy.mean (g session) + 1e-6)) (g session).
Definition b_n : list R :=
  map (fun x => x / (Numpy.mean (b session) + 1e-6)) (b session).

(* CHROM: X = 3R - 2G,  Y = 1.5R + G - 1.5B *)
Definition X : list R := zip_with (fun rn gn => 3 * rn - 2 * gn) r_n g_n.
Definition Y : list R :=
  zip_with (fun rg bn => rg - 1.5 * bn)
    (zip_with (fun rn gn => 1.5 * rn + gn) r_n g_n) b_n.

Definition alpha : R := Numpy.std X / (Numpy.std Y + 1e-9).
Definition ppg : list R := zip_with (fun x y => x - alpha * y) X Y.

(* Band-pass: keep 40-200 BPM = 0.67-3.33 Hz at ~30fps *)
Definition fft : list Numpy.complex := Numpy.rfft ppg.
Definition freqs : list R := Numpy.rfftfreq (length ppg) (1.0 / FPS).

Definition lo : R := 0.67.
Definition hi : R := 3.33.
Definition mask : list bool :=
  map (fun f => bool_decide (lo <= f) && bool_decide (f <= hi)) freqs.

Definition power_in : R := Numpy.sum (map Numpy.cabs (Numpy.select fft mask)).
Definition power_all : R := Numpy.sum (map Numpy.cabs fft) + 1e-9.
Definition snr : R := power_in / power_all.

(* Invert: high SNR -> low anomaly score *)
Definition anomaly : R := Numpy.clip (1.0 - snr * 3) 0.0 1.0.
End Locals.
End ComputeScore.

Definition _compute_score (session : PPGSession) : R :=
  ComputeScore.anomaly session.

(** The analyzer's only attribute, the dictionary [_sessions]. *)
Abbreviation Sessions := (gmap string PPGSession).

(** [PPGAnalyzer.__init__] *)
Definition PPGAnalyzer_init : Sessions := ∅.

(** [PPGAnalyzer._get_session]: the session stored under [sid], created
    empty and stored first when [sid] is not a key yet. *)
Definition _get_session (_sessions : Sessions) (sid : string)
  : PPGSession * Sessions :=
  match _sessions !! sid with
  | None => (PPGSession_init, <[sid := PPGSession_init]> _sessions)
  | Some s => (s, _sessions)
  end.

(** [PPGAnalyzer.analyze].  [session] is the object held by the dictionary,
    so [session.append] updates the entry under [session_id]. *)
Definition analyze (_sessions : Sessions) (img_bgr : Frame)
    (face_bbox : option BBox) (session_id : string) : R * Sessions :=
  let '(session, _sessions) := _get_session _sessions session_id in
  match _extract_forehead_rgb img_bgr face_bbox with
  | None => (0.5, _sessions)
  | Some (rv, gv, bv) =>
      let session := append session rv gv bv in
      let _sessions := <[session_id := session]> _sessions in
      if decide (len session < MIN_FRAMES)%nat then (0.0, _sessions)
      else (_compute_score session, _sessions)
  end.

(** ** [backend/app/main.py] *)

(** [fastapi.HTTPException(status_code, detail)] *)
Record HTTPException : Type := mkHTTPException {
  status_code : Z;
  detail : string;
}.

(** The request and response schemas.  [inference_time_ms] (wall-clock
    time) and the [detail] dictionary of a result are left out. *)
Record FrameRequest : Type := mkFrameRequest {
  frame_b64 : string;
  frame_number : Z;
  timestamp_ms : Z;
  session_id : string;
}.

Record BatchFrameRequest : Type := mkBatchFrameRequest {
  frames : list FrameRequest;
  batch_session_id : string;
}.

Record AnalysisResult : Type := mkAnalysisResult {
  res_frame_number : Z;
  deepfake_confidence : R;
  ppg_score : R;
  temporal_score : R;
  combined_score : R;
  classification : string;
  threat_level : string;
}.

Record BatchAnalysisResult : Type := mkBatchAnalysisResult {
  results : list AnalysisResult;
  res_session_id : string;
  avg_combined_score : R;
  overall_verdict : string;
}.

(** [_classify] *)
Definition _classify (score : R) : string * string :=
  if decide (score < 0.30) then ("real", "safe")
  else if decide (score < 0.70) then ("suspicious", "warning")
  else ("fake", "danger").

(** The weighted fusion of [analyze_frame]. *)
Definition fusion (deep_conf ppg_score temp_score : R) : R :=
  0.60 * deep_conf + 0.20 * ppg_score + 0.20 * temp_score.

(** [frame_req.session_id = sid] *)
Definition set_session_id (frame_req : FrameRequest) (sid : string)
  : FrameRequest :=
  {| frame_b64 := frame_b64 frame_req;
     frame_number := frame_number frame_req;
     timestamp_ms := timestamp_ms frame_req;
     session_id := sid |}.

(** A call either returns a value or raises an [HTTPException]. *)
Inductive outcome (A : Type) : Type :=
| Return (a : A)
| Raise (e : HTTPException).
Arguments Return {A} a.
Arguments Raise {A} e.

(** The piece of [b64.split(",")] before the first comma, and the rest
    after that comma when there is one. *)
Fixpoint cut_comma (s : string) : string * option string :=
  match s with
  | EmptyString => (EmptyString, None)
  | String c rest =>
      if Ascii.eqb c ","%char then (EmptyString, Some rest)
      else let '(hd, tl) := cut_comma rest in (String c hd, tl)
  end.

(** [if "," in b64: b64 = b64.split(",")[1]] *)
Definition strip_data_uri (b64 : string) : string :=
  match snd (cut_comma b64) with
  | Some rest => fst (cut_comma rest)
  | None => b64
  end.

Section Endpoints.

(** The collaborators that live outside [ppg.py] and [main.py]. *)

(** [base64.b64decode], [np.frombuffer] and [cv2.imdecode] in a row:
    [None] when one of them raises or [cv2.imdecode] returns [None]. *)
Variable imdecode : string -> option Frame.

(** The text [str(e)] of the exception [e] by which the decoding of a
    string fails (the error of [base64.b64decode] or of OpenCV, or
    "cv2 returned None"). *)
Variable decode_error : string -> string.

(** [preprocessing.preprocess_frame]: the face crop, if a face was found,
    and its bounding box. *)
Variable Face : Type.
Variable preprocess_frame : Frame -> option Face * option BBox.

(** [DeepfakeModel.predict] *)
Variable predict : Face -> R.

(** [temporal.TemporalConsistencyChecker]: its state and its [update]
    method, called with the session id, the confidence and the frame
    number. *)
Variable TemporalConsistencyChecker : Type.
Variable temporal_update :
  TemporalConsistencyChecker -> string -> R -> Z ->
  R * TemporalConsistencyChecker.

(** The two singletons the endpoints share. *)
Record Singletons : Type := mkSingletons {
  _ppg_analyzer : Sessions;
  _temporal_checker : TemporalConsistencyChecker;
}.

(** An endpoint reads and updates the singletons and may raise. *)
Definition M (A : Type) : Type := Singletons -> outcome A * Singletons.

Definition ret {A} (a : A) : M A := fun w => (Return a, w).
Definition raise {A} (e : HTTPException) : M A := fun w => (Raise e, w).
Definition bind {A B} (m : M A) (k : A -> M B) : M B :=
  fun w => match m w with
           | (Return a, w') => k a w'
           | (Raise e, w') => (Raise e, w')
           end.

Notation "'do' x <- m 'in' k" := (bind m (fun x => k))
  (at level 10, x name, m at level 100, k at level 200, only parsing).

(** [_ppg_analyzer.analyze(img, face_bbox, sid)] on the shared analyzer. *)
Definition ppg_analyze (img : Frame) (face_bbox : option BBox)
    (sid : string) : M R :=
  fun w =>
    let '(score, sessions) := analyze (_ppg_analyzer w) img face_bbox sid in
    (Return score,
     {| _ppg_analyzer := sessions;
        _temporal_checker := _temporal_checker w |}).

(** [_temporal_checker.update(sid, conf, frame_number)] on the shared
    checker. *)
Definition temporal_checker_update (sid : string) (conf : R) (fn : Z)
  : M R :=
  fun w =>
    let '(score, checker) :=
      temporal_update (_temporal_checker w) sid conf fn in
    (Return score,
     {| _ppg_analyzer := _ppg_analyzer w; _temporal_checker := checker |}).

(** [_decode_frame]: strip a data-URI prefix, then decode; a failure is
    reported as error 400 whose detail is [f"Invalid image data: {e}"]. *)
Definition _decode_frame (b64 : string) : M Frame :=
  let b64 := strip_data_uri b64 in
  match imdecode b64 with
  | Some img => ret img
  | None =>
      raise (mkHTTPException 400 ("Invalid image data: " +:+ decode_error b64))
  end.

(** [analyze_frame] *)
Definition analyze_frame (req : FrameRequest) : M AnalysisResult :=
  do img <- _decode_frame (frame_b64 req) in
  let '(face, face_bbox) := preprocess_frame img in
  match face with
  | None => raise (mkHTTPException 422 "No face detected in frame")
  | Some face =>
      let deep_conf := predict face in
      do ppg_score <- ppg_analyze img face_bbox (session_id req) in
      do temp_score <-
        temporal_checker_update (session_id req) deep_conf
          (frame_number req) in
      let combined := fusion deep_conf ppg_score temp_score in
      let '(cls, threat) := _classify combined in
      ret {| res_frame_number := frame_number req;
             deepfake_confidence := round deep_conf 4;
             ppg_score := round ppg_score 4;
             temporal_score := round temp_score 4;
             combined_score := round combined 4;
             classification := cls;
             threat_level := threat |}
  end.

(** The loop of [analyze_batch]: every frame request gets the batch's
    session id, is analysed, and its result is kept unless the analysis
    raised an [HTTPException]. *)
Fixpoint analyze_batch_loop (sid : string) (frames : list FrameRequest)
    (results : list AnalysisResult) : Singletons ->
    list AnalysisResult * Singletons :=
  fun w =>
    match frames with
    | [] => (results, w)
    | frame_req :: rest =>
        let frame_req := set_session_id frame_req sid in
        match analyze_frame frame_req w with
        | (Return r, w') => analyze_batch_loop sid rest (results ++ [r]) w'
        | (Raise _, w') => analyze_batch_loop sid rest results w'
        end
    end.

(** [analyze_batch] *)
Definition analyze_batch (req : BatchFrameRequest) : M BatchAnalysisResult :=
  fun w =>
    let '(results, w) :=
      analyze_batch_loop (batch_session_id req) (frames req) [] w in
    match results with
    | [] => (Raise (mkHTTPException 422 "No faces detected in any frame"), w)
    | _ :: _ =>
        let avg :=
          Numpy.sum (map combined_score results) / INR (length results) in
        let '(_, verdict_threat) := _classify avg in
        (Return {| results := results;
                   res_session_id := batch_session_id req;
                   avg_combined_score := round avg 4;
                   overall_verdict := verdict_threat |}, w)
    end.

(** What [analyze_frame] does for each frame of a batch, in order, when
    the frames are analysed one after the other under session id [sid]:
    the value returned or the exception raised. *)
Fixpoint frame_outcomes (sid : string) (frames : list FrameRequest)
    (w : Singletons) : list (outcome AnalysisResult) :=
  match frames with
  | [] => []
  | frame_req :: rest =>
      let '(o, w') := analyze_frame (set_session_id frame_req sid) w in
      o :: frame_outcomes sid rest w'
  end.

End Endpoints.

Arguments mkSingletons {TemporalConsistencyChecker} _ _.
Arguments _ppg_analyzer {TemporalConsistencyChecker} _.
Arguments _temporal_checker {TemporalConsistencyChecker} _.

(** ** Notions used in the statements *)

(** The session a lookup of [sid] would hand out: the stored one, or a
    fresh empty one for an id that has not been seen. *)
Definition session_of (ss : Sessions) (sid : string) : PPGSession :=
  match ss !! sid with Some s => s | None => PPGSession_init end.

(** The stores the analyzer can be in: the initial one and whatever a call
    of [analyze] leaves behind. *)
Inductive reachable : Sessions -> Prop :=
| reachable_init : reachable PPGAnalyzer_init
| reachable_analyze ss img_bgr face_bbox sid :
    reachable ss -> reachable (snd (analyze ss img_bgr face_bbox sid)).

Record session_ok (s : PPGSession) : Prop := mk_session_ok {
  ok_rg : length (r s) = length (g s);
  ok_gb : length (g s) = length (b s);
  ok_bound : (length (r s) <= MAX_LEN)%nat;
  ok_r : Forall (fun x => 0 <= x) (r s);
  ok_g : Forall (fun x => 0 <= x) (g s);
  ok_b : Forall (fun x => 0 <= x) (b s);
}.


(** Appending a sequence of colour samples, oldest first. *)
Definition append_all (s : PPGSession) (samples : list (R * R * R))
  : PPGSession :=
  foldl (fun s '(rv, gv, bv) => append s rv gv bv) s samples.

(** The values of the outcomes that are returns, in order. *)
Definition returned {A} (os : list (outcome A)) : list A :=
  flat_map (fun o => match o with Return a => [a] | Raise _ => [] end) os.

(** Whether an outcome is a return. *)
Definition has_result {A} (o : outcome A) : bool :=
  match o with Return _ => true | Raise _ => false end.

(** Two frame requests that differ at most in their session id. *)
Definition same_payload (f f' : FrameRequest) : Prop :=
  frame_b64 f = frame_b64 f'
  /\ frame_number f = frame_number f'
  /\ timestamp_ms f = timestamp_ms f'.

(** ** Concrete inputs used to exercise the statements *)

(** An 8 x 8 frame of one colour with the given red level, and a face box
    inside it. *)
Definition frame_of_red (c : byte) : Frame :=
  {| shape_h := 8; shape_w := 8;
     pixel := fun _ _ => {| blue := x10; green := x20; red := c |} |}.

Definition frame0 : Frame := frame_of_red x30.

Definition bbox0 : BBox :=
  <["x" := 0%Z]> (<["y" := 0%Z]> (<["w" := 8%Z]> (<["h" := 8%Z]> ∅))).

(** A face box of zero width: its forehead region is empty. *)
Definition bbox_flat : BBox :=
  <["x" := 0%Z]> (<["y" := 0%Z]> (<["w" := 0%Z]> (<["h" := 8%Z]> ∅))).

(** One call of [analyze], and a sequence of calls run one after the other
    on the same analyzer; every call is logged with its session id and the
    score it returned. *)
Record Call : Type := mkCall {
  call_sid : string;
  call_img : Frame;
  call_bbox : option BBox;
}.

Fixpoint run (ss : Sessions) (calls : list Call)
  : list (string * R) * Sessions :=
  match calls with
  | [] => ([], ss)
  | c :: calls =>
      let '(score, ss) := analyze ss (call_img c) (call_bbox c) (call_sid c) in
      let '(log, ss) := run ss calls in
      ((call_sid c, score) :: log, ss)
  end.

(** Stand-ins for the collaborators of the endpoints: a decoder that turns
    a one-character string into a frame of that red level and fails on
    every other string with the text "cv2 returned None", a face locator
    that finds no face in a frame of red level 32, a classifier reading the
    red level, and a temporal checker that logs the session id and the
    frame number of every update. *)
Definition imdecode0 (s : string) : option Frame :=
  match s with
  | String c EmptyString => Some (frame_of_red (byte_of_ascii c))
  | _ => None
  end.

Definition decode_error0 (s : string) : string := "cv2 returned None".

Definition preprocess0 (img : Frame) : option Frame * option BBox :=
  if Byte.eqb (red (pixel img 0 0)) x20 then (None, None)
  else (Some img, Some bbox0).

Definition predict0 (face : Frame) : R := to_float (red (pixel face 0 0)) / 300.

Definition temporal0 (log : list (string * Z)) (sid : string) (conf : R)
    (fn : Z) : R * list (string * Z) :=
  (0, log ++ [(sid, fn)]).

Definition analyze_frame0 :=
  analyze_frame imdecode0 decode_error0 Frame preprocess0 predict0
    (list (string * Z)) temporal0.
Definition analyze_batch0 :=
  analyze_batch imdecode0 decode_error0 Frame preprocess0 predict0
    (list (string * Z)) temporal0.

Definition world0 : Singletons (list (string * Z)) :=
  {| _ppg_analyzer := PPGAnalyzer_init; _temporal_checker := [] |}.

(** Frame requests: two faces of different confidence and a frame without
    a face, each carrying a session id of its own. *)
Definition req_a (n : Z) : FrameRequest :=
  {| frame_b64 := "2"; frame_number := n; timestamp_ms := 0; session_id := "a" |}.
Definition req_b (n : Z) : FrameRequest :=
  {| frame_b64 := "d"; frame_number := n; timestamp_ms := 0; session_id := "b" |}.
Definition req_noface (n : Z) : FrameRequest :=
  {| frame_b64 := " "; frame_number := n; timestamp_ms := 0; session_id := "c" |}.

(** A batch of five frames, three of them with a face, and the same batch
    with the session id of every frame already set to the batch's. *)
Definition batch_mixed : BatchFrameRequest :=
  {| frames := [req_a 0; req_noface 1; req_a 2; req_noface 3; req_b 4];
     batch_session_id := "s" |}.

Definition batch_uniform : BatchFrameRequest :=
  {| frames := map (fun f => set_session_id f "s") (frames batch_mixed);
     batch_session_id := "s" |}.

(** A batch of five frames none of which shows a face. *)
Definition batch_nofaces : BatchFrameRequest :=
  {| frames := [req_noface 0; req_noface 1; req_noface 2; req_noface 3;
                req_noface 4];
     batch_session_id := "s" |}.

(** A face box three pixels high. *)
Definition bbox_small : BBox :=
  <["x" := 0%Z]> (<["y" := 0%Z]> (<["w" := 8%Z]> (<["h" := 3%Z]> ∅))).

(** ** The forehead sample as the design document words it *)

(** The region of the design document: the top 15% of the box height and
    the band from 25% to 75% of the box width, both clamped to the frame. *)
Definition forehead_roi_spec (img : Frame) (face_bbox : option BBox)
  : Z * Z * Z * Z :=
  let '(fx, fy, fw, fh) := resolve_bbox img face_bbox in
  (Z.max 0 fy,
   Z.min (Z.of_nat (shape_h img)) (fy + int (inject_Z fh * 0.15%Q)),
   Z.max 0 (fx + int (inject_Z fw * 0.25%Q)),
   Z.min (Z.of_nat (shape_w img)) (fx + int (inject_Z fw * 0.75%Q)))%Z.

(** It fails when that region has no height or no width, and otherwise
    gives the mean of each channel over the region. *)
Definition extract_forehead_sample_spec (img : Frame)
    (face_bbox : option BBox) : option (R * R * R) :=
  let '(y1, y2, x1, x2) := forehead_roi_spec img face_bbox in
  if decide (y2 <= y1 \/ x2 <= x1)%Z then None
  else
    let roi := slice img y1 y2 x1 x2 in
    Some (Numpy.mean (map (fun p => to_float (red p)) roi),
          Numpy.mean (map (fun p => to_float (green p)) roi),
          Numpy.mean (map (fun p => to_float (blue p)) roi)).

(** [f lo + f (lo + 1) + ... + f (lo + n - 1)] *)
Fixpoint sum_range (f : nat -> R) (lo n : nat) : R :=
  match n with
  | O => 0
  | S n => f lo + sum_range f (S lo) n
  end.

(** The sum of one channel over the rows [y1 .. y2 - 1] and the columns
    [x1 .. x2 - 1] of a frame. *)
Definition channel_sum (channel : Pixel -> byte) (img : Frame)
    (y1 y2 x1 x2 : Z) : R :=
  sum_range
    (fun y => sum_range (fun x => to_float (channel (pixel img y x)))
                (Z.to_nat x1) (Z.to_nat (x2 - x1)))
    (Z.to_nat y1) (Z.to_nat (y2 - y1)).

(** ** The PPG score as the design document words it *)

Module ChromSpec.
Section Pipeline.
(** The three colour series of the session, of [n] samples each. *)
Variables Rs Gs Bs : list R.
Definition n : nat := length Rs.

Definition eps_mean : R := 1e-6.
Definition eps : R := 1e-9.

(** The series [f 0, ..., f (n - 1)]. *)
Definition series (f : nat -> R) : list R := map f (seq 0 n).

(** (a) each series divided by its own mean plus epsilon *)
Definition R_n (t : nat) : R := nth t Rs 0 / (Numpy.mean Rs + eps_mean).
Definition G_n (t : nat) : R := nth t Gs 0 / (Numpy.mean Gs + eps_mean).
Definition B_n (t : nat) : R := nth t Bs 0 / (Numpy.mean Bs + eps_mean).

(** (b) the chrominance signals *)
Definition X (t : nat) : R := 3 * R_n t - 2 * G_n t.
Definition Y (t : nat) : R := 1.5 * R_n t + G_n t - 1.5 * B_n t.

(** (c) the pulse signal *)
Definition alpha : R := Numpy.std (series X) / (Numpy.std (series Y) + eps).
Definition P (t : nat) : R := X t - alpha * Y t.

(** (d) the magnitude and the frequency in Hz of bin [i] of the
    transform of [P], for [i = 0 .. n/2] *)
Definition bins : nat := (n / 2 + 1)%nat.
Definition magnitude (i : nat) : R := Numpy.cabs (Numpy.dft_bin (series P) i).
Definition frequency (i : nat) : R := INR i * 30 / INR n.

(** (e) the share of the cardiac band in the spectrum *)
Definition in_band (i : nat) : bool :=
  bool_decide (0.67 <= frequency i) && bool_decide (frequency i <= 3.33).
Definition SNR : R :=
  sum_range (fun i => if in_band i then magnitude i else 0) 0 bins
  / (sum_range magnitude 0 bins + eps).

(** (f) the score *)
Definition clamp (x lo hi : R) : R :=
  if decide (x < lo) then lo else if decide (hi < x) then hi else x.
Definition score : R := clamp (1 - 3 * SNR) 0 1.
End Pipeline.
End ChromSpec.

(** A call of [analyze] on the one-colour frame for session "cam", and the
    store after 59 such calls on a new analyzer. *)
Definition call0 : Call :=
  {| call_sid := "cam"; call_img := frame0; call_bbox := Some bbox0 |}.

Definition sessions59 : Sessions := (run PPGAnalyzer_init (repeat call0 59)).2.

(** Calls for two sessions, interleaved. *)
Definition call_a : Call :=
  {| call_sid := "a"; call_img := frame0; call_bbox := Some bbox0 |}.
Definition call_b : Call :=
  {| call_sid := "b"; call_img := frame_of_red x40; call_bbox := Some bbox0 |}.

(** ** [backend/app/models.py]: the classifier wrapper *)

(** [torch.softmax(logits, dim=1)] on the two logits of one image, over the
    reals.  (In float32 the two quotients are rounded and reach 0, 1/2 and
    1 exactly for logits far apart or very close; what is stated of them
    below are the closed bounds, which the rounding preserves.) *)
Definition softmax2 (logits : R * R) : R * R :=
  let z := exp logits.1 + exp logits.2 in
  (exp logits.1 / z, exp logits.2 / z).

(** [DeepfakeModel.predict]: the probability of class 1 (fake).  The image
    transform ([Image.fromarray], resize, normalisation) and the network
    are the two parameters. *)
Definition DeepfakeModel_predict {Face Tensor : Type}
    (_TRANSFORM : Face -> Tensor) (model : Tensor -> R * R)
    (face_rgb : Face) : R :=
  let tensor := _TRANSFORM face_rgb in
  let logits := model tensor in
  let probs := softmax2 logits in
  probs.2.

(** ** Further notions used in the statements *)

(** [c in s] for a character and a string. *)
Fixpoint contains (c : ascii) (s : string) : bool :=
  match s with
  | EmptyString => false
  | String c' rest => Ascii.eqb c' c || contains c rest
  end.

(** The calls of a sequence that address session [sid] and whose forehead
    extraction succeeds. *)
Definition appended_for (sid : string) (calls : list Call) : list Call :=
  filter (fun c => call_sid c = sid
                   /\ _extract_forehead_rgb (call_img c) (call_bbox c) <> None)
    calls.

(** ** [training/prepare_data.py] *)

Definition TRAIN_SPLIT : Q := 0.80%Q.
Definition VAL_SPLIT : Q := 0.10%Q.

(** [lst[lo:hi]] and [lst[lo:]] for bounds that are not negative. *)
Definition slice_between {A} (lst : list A) (lo hi : Z) : list A :=
  take (Z.to_nat hi - Z.to_nat lo) (drop (Z.to_nat lo) lst).
Definition slice_from {A} (lst : list A) (lo : Z) : list A :=
  drop (Z.to_nat lo) lst.

(** The dictionary [split_list] returns, one field per key. *)
Record Splits (A : Type) : Type := mkSplits {
  train : list A;
  val : list A;
  test : list A;
}.
Arguments mkSplits {A} _ _ _.
Arguments train {A} _.
Arguments val {A} _.
Arguments test {A} _.

(** [split_list] of [main]; [shuffle] stands for the in-place
    [random.shuffle]. *)
Definition split_list {A} (shuffle : list A -> list A) (lst : list A)
  : Splits A :=
  let lst := shuffle lst in
  let n := Z.of_nat (length lst) in
  let t := int (inject_Z n * TRAIN_SPLIT) in
  let v := int (inject_Z n * VAL_SPLIT) in
  {| train := slice_between lst 0 t;
     val := slice_between lst t (t + v);
     test := slice_from lst (t + v) |}.

(** [list(range(0, stop, step))] for [step >= 1]. *)
Definition range0 (stop step : Z) : list Z :=
  map (fun i => (Z.of_nat i * step)%Z)
    (seq 0 (Z.to_nat ((stop + step - 1) / step))).

(** [l[:m]]; a negative [m] counts from the end. *)
Definition slice_to {A} (l : list A) (m : Z) : list A :=
  if decide (0 <= m)%Z then take (Z.to_nat m) l
  else take (length l - Z.to_nat (- m)) l.

(** The frame indices [extract_faces_from_video] visits in a video of
    [total_frames] frames; [None] is the [ZeroDivisionError] of
    [total_frames // max_frames]. *)
Definition frame_indices (total_frames max_frames : Z) : option (list Z) :=
  if decide (max_frames = 0)%Z then None
  else
    let step := Z.max 1 (total_frames / max_frames) in
    Some (slice_to (range0 total_frames step) max_frames).

(** A file written by [extract_faces_from_video]: the parts of its name
    ([split], [label], video id, frame index, the [_aug] suffix), the image
    and the JPEG quality. *)
Record SavedFile (Face : Type) : Type := mkSavedFile {
  sf_split : string;
  sf_label : Z;
  sf_vid_id : string;
  sf_index : Z;
  sf_aug : bool;
  sf_image : Face;
  sf_quality : Z;
}.
Arguments mkSavedFile {Face} _ _ _ _ _ _ _.
Arguments sf_split {Face} _.
Arguments sf_label {Face} _.
Arguments sf_vid_id {Face} _.
Arguments sf_index {Face} _.
Arguments sf_aug {Face} _.
Arguments sf_image {Face} _.
Arguments sf_quality {Face} _.

Section ExtractFaces.

(** [cap.set(POS_FRAMES, fi); cap.read()], the face extraction of the
    chosen detector, [cv2.resize] to the face size, and the augmenter. *)
Context {Image Face : Type}.
Variable read : Z -> option Image.
Variable extract_face : Image -> option Face.
Variable resize : Face -> Face.
Variable augmenter : option (Face -> Face).

(** One turn of the loop over the sampled indices: the count of saved
    faces and the files written so far, oldest first. *)
Definition visit_frame (vid_id : string) (label : Z) (split : string)
    (st : Z * list (SavedFile Face)) (fi : Z) : Z * list (SavedFile Face) :=
  let '(saved, files) := st in
  match read fi with
  | None => st
  | Some frame =>
      match extract_face frame with
      | None => st
      | Some face =>
          let face := resize face in
          let files :=
            files ++ [mkSavedFile split label vid_id fi false face 95] in
          let saved := (saved + 1)%Z in
          match augmenter with
          | Some aug =>
              if decide (split = "train")
              then (saved,
                    files ++ [mkSavedFile split label vid_id fi true (aug face) 90])
              else (saved, files)
          | None => (saved, files)
          end
      end
  end.

(** [extract_faces_from_video]: the number of faces saved and the files
    written, or [None] for the [ZeroDivisionError]. *)
Definition extract_faces_from_video (total_frames max_frames : Z)
    (vid_id : string) (label : Z) (split : string)
  : option (Z * list (SavedFile Face)) :=
  if decide (total_frames = 0)%Z then Some (0%Z, [])
  else
    match frame_indices total_frames max_frames with
    | None => None
    | Some idxs => Some (foldl (visit_frame vid_id label split) (0%Z, []) idxs)
    end.

End ExtractFaces.

(** A detection of the OpenCV cascade: [(x, y, w, h)], a row of an
    [np.int32] array. *)
Definition Rect : Type := Z * Z * Z * Z.

(** Arithmetic on [np.int32] wraps around: the 32-bit two's complement
    value of the exact result [z]. *)
Definition int32 (z : Z) : Z :=
  ((z + 2147483648) mod 4294967296 - 2147483648)%Z.

(** [r[2] * r[3]], a product of two [np.int32]. *)
Definition rect_area (r : Rect) : Z :=
  let '(_, _, w, h) := r in int32 (w * h).

(** [max(faces, key=lambda r: r[2] * r[3])] with [best] the largest so far:
    the first detection of maximal area. *)
Fixpoint max_by_area (best : Rect) (faces : list Rect) : Rect :=
  match faces with
  | [] => best
  | r :: faces =>
      if decide (rect_area best < rect_area r)%Z then max_by_area r faces
      else max_by_area best faces
  end.

(** The crop box [(x1, y1, x2, y2)] of [extract_face_opencv] in a frame of
    [h_img] rows and [w_img] columns, or [None] when nothing was
    detected.  [pad] is a Python [int]; the sums and differences that
    involve the [np.int32] coordinates stay [np.int32] (NumPy 2; earlier
    versions widen a sum with a Python [int] to 64 bits, which gives the
    same values as long as nothing leaves the 32-bit range). *)
Definition opencv_crop_box (h_img w_img : Z) (faces : list Rect)
  : option (Z * Z * Z * Z) :=
  match faces with
  | [] => None
  | r0 :: rest =>
      let '(x, y, w, h) := max_by_area r0 rest in
      let pad := int (inject_Z (Z.max w h) * 0.2%Q) in
      let x1 := Z.max 0 (int32 (x - pad)) in
      let y1 := Z.max 0 (int32 (y - pad)) in
      let x2 := Z.min w_img (int32 (int32 (x + w) + pad)) in
      let y2 := Z.min h_img (int32 (int32 (y + h) + pad)) in
      Some (x1, y1, x2, y2)
  end.

(** A detection that lies inside a frame of [h_img] rows and [w_img]
    columns. *)
Definition inside_frame (h_img w_img : Z) (r : Rect) : Prop :=
  let '(x, y, w, h) := r in
  (0 <= x /\ 0 <= y /\ 0 <= w /\ 0 <= h
   /\ x + w <= w_img /\ y + h <= h_img)%Z.

(** Three detections in a frame of 480 rows and 640 columns. *)
Definition faces3 : list Rect :=
  [(100, 50, 80, 80); (300, 100, 120, 120); (10, 10, 90, 90)]%Z.
(** * Properties *)

(** ** Arithmetic of the NumPy primitives *)

Lemma sum_nonneg (a : list R) :
  Forall (fun x => 0 <= x) a -> 0 <= Numpy.sum a.
Proof.
  induction 1 as [|x a Hx _ IH]; simpl; lra.
Qed.

Lemma sum_app (a c : list R) :
  Numpy.sum (a ++ c) = Numpy.sum a + Numpy.sum c.
Proof.
  induction a as [|x a IH]; simpl; [lra | rewrite IH; lra].
Qed.

Lemma mean_nonneg (a : list R) :
  Forall (fun x => 0 <= x) a -> 0 <= Numpy.mean a.
Proof.
  intros Ha. unfold Numpy.mean.
  destruct a as [|x a].
  - simpl. unfold Rdiv. rewrite Rmult_0_l. lra.
  - apply Rmult_le_pos; [by apply sum_nonneg |].
    apply Rlt_le, Rinv_0_lt_compat, lt_0_INR. simpl. lia.
Qed.

Lemma std_nonneg (a : list R) : 0 <= Numpy.std a.
Proof. apply sqrt_pos. Qed.

Lemma cabs_nonneg (z : Numpy.complex) : 0 <= Numpy.cabs z.
Proof. apply sqrt_pos. Qed.

Lemma sum_cabs_nonneg (zs : list Numpy.complex) :
  0 <= Numpy.sum (map Numpy.cabs zs).
Proof.
  induction zs as [|z zs IH]; simpl; [lra |].
  pose proof (cabs_nonneg z). lra.
Qed.

Lemma clip_unit (x : R) : 0 <= Numpy.clip x 0.0 1.0 <= 1.
Proof.
  unfold Numpy.clip, Rmin, Rmax.
  repeat destruct (Rle_dec _ _); lra.
Qed.

Lemma to_float_nonneg (c : byte) : 0 <= to_float c.
Proof. unfold to_float. apply IZR_le. lia. Qed.

(** ** The bounded deque *)

Lemma deque_append_drop {A} (maxlen : nat) (d : deque A) (x : A) :
  (length d <= maxlen)%nat ->
  deque_append maxlen d x = drop (length (d ++ [x]) - maxlen) (d ++ [x]).
Proof.
  intros Hd. unfold deque_append.
  assert (Hl : length (d ++ [x]) = S (length d))
    by (rewrite length_app; simpl; lia).
  case_decide as Hlen.
  - replace (length (d ++ [x]) - maxlen)%nat with 1%nat by lia.
    by destruct (d ++ [x]).
  - replace (length (d ++ [x]) - maxlen)%nat with 0%nat by lia.
    done.
Qed.

Lemma deque_append_length {A} (maxlen : nat) (d : deque A) (x : A) :
  (length d <= maxlen)%nat ->
  length (deque_append maxlen d x) = Nat.min maxlen (S (length d)).
Proof.
  intros Hd. rewrite deque_append_drop by done.
  rewrite length_drop, length_app. simpl. lia.
Qed.

(** Appending a whole sequence keeps the newest [maxlen] elements. *)
Lemma foldl_deque_append {A} (maxlen : nat) (xs : list A) (d : deque A) :
  (length d <= maxlen)%nat ->
  foldl (deque_append maxlen) d xs
  = drop (length (d ++ xs) - maxlen) (d ++ xs).
Proof.
  revert d. induction xs as [|x xs IH]; intros d Hd; simpl.
  - rewrite app_nil_r. replace (length d - maxlen)%nat with 0%nat by lia.
    done.
  - rewrite IH by (rewrite deque_append_length by done; lia).
    rewrite deque_append_drop by done.
    set (k := (length (d ++ [x]) - maxlen)%nat).
    assert (Hk : (k <= length (d ++ [x]))%nat) by (unfold k; lia).
    rewrite <- (drop_app_le (d ++ [x]) xs k) by done.
    rewrite drop_drop, <- app_assoc. simpl.
    f_equal. rewrite length_drop, !length_app in *. simpl in *.
    unfold k. rewrite length_app. simpl. lia.
Qed.

(** ** Sessions: the invariant of every stored session *)

Lemma analyze_fail ss img_bgr face_bbox sid :
  _extract_forehead_rgb img_bgr face_bbox = None ->
  analyze ss img_bgr face_bbox sid
  = (0.5, match ss !! sid with
          | None => <[sid := PPGSession_init]> ss
          | Some _ => ss
          end).
Proof.
  intros E. unfold analyze, _get_session. rewrite E.
  by destruct (ss !! sid).
Qed.

Lemma analyze_ok ss img_bgr face_bbox sid rv gv bv :
  _extract_forehead_rgb img_bgr face_bbox = Some (rv, gv, bv) ->
  analyze ss img_bgr face_bbox sid
  = let session := append (session_of ss sid) rv gv bv in
    (if decide (len session < MIN_FRAMES)%nat then 0.0
     else _compute_score session,
     <[sid := session]> ss).
Proof.
  intros E. unfold analyze, _get_session, session_of. rewrite E.
  destruct (ss !! sid) as [s|].
  - by case_decide.
  - rewrite insert_insert_eq. by case_decide.
Qed.

Lemma map_nonneg {A} (f : A -> R) (l : list A) :
  (forall x, 0 <= f x) -> Forall (fun x => 0 <= x) (map f l).
Proof. intros Hf. induction l; simpl; constructor; auto. Qed.

Lemma extract_nonneg img_bgr face_bbox rv gv bv :
  _extract_forehead_rgb img_bgr face_bbox = Some (rv, gv, bv) ->
  0 <= rv /\ 0 <= gv /\ 0 <= bv.
Proof.
  unfold _extract_forehead_rgb.
  destruct (forehead_roi img_bgr face_bbox) as [[[y1 y2] x1] x2].
  case_decide; [done |]. intros [= <- <- <-].
  repeat split; apply mean_nonneg, map_nonneg; intros p; apply to_float_nonneg.
Qed.

Lemma session_init_ok : session_ok PPGSession_init.
Proof. split; simpl; try done; unfold MAX_LEN; lia. Qed.

Lemma deque_append_nonneg (d : deque R) (x : R) :
  (length d <= MAX_LEN)%nat ->
  Forall (fun x => 0 <= x) d -> 0 <= x ->
  Forall (fun x => 0 <= x) (deque_append MAX_LEN d x).
Proof.
  intros Hd Hall Hx. rewrite deque_append_drop by done.
  apply Forall_drop, Forall_app. split; [done | by constructor].
Qed.

Lemma append_ok s rv gv bv :
  session_ok s -> 0 <= rv -> 0 <= gv -> 0 <= bv ->
  session_ok (append s rv gv bv).
Proof.
  intros [Hrg Hgb Hb Hr Hg Hbl] Hrv Hgv Hbv.
  assert (length (g s) <= MAX_LEN)%nat by lia.
  assert (length (b s) <= MAX_LEN)%nat by lia.
  split; simpl; rewrite ?deque_append_length by done;
    try lia; by apply deque_append_nonneg.
Qed.

Lemma session_of_ok ss sid :
  (forall sid' s, ss !! sid' = Some s -> session_ok s) ->
  session_ok (session_of ss sid).
Proof.
  intros Hss. unfold session_of.
  destruct (ss !! sid) as [s|] eqn:E; [by eapply Hss | apply session_init_ok].
Qed.

Lemma analyze_preserves_ok ss img_bgr face_bbox sid :
  (forall sid' s, ss !! sid' = Some s -> session_ok s) ->
  forall sid' s,
    snd (analyze ss img_bgr face_bbox sid) !! sid' = Some s -> session_ok s.
Proof.
  intros Hss sid' s.
  destruct (_extract_forehead_rgb img_bgr face_bbox) as [[[rv gv] bv]|] eqn:E.
  - rewrite (analyze_ok _ _ _ _ _ _ _ E). cbn [snd].
    destruct (decide (sid = sid')) as [<-|Hne].
    + rewrite lookup_insert_eq. intros [= <-].
      apply extract_nonneg in E as (? & ? & ?).
      by apply append_ok; [apply session_of_ok |..].
    + rewrite lookup_insert_ne by done. apply Hss.
  - rewrite (analyze_fail _ _ _ _ E). cbn [snd].
    destruct (ss !! sid) as [s0|] eqn:Es; [apply Hss |].
    destruct (decide (sid = sid')) as [<-|Hne].
    + rewrite lookup_insert_eq. intros [= <-]. apply session_init_ok.
    + rewrite lookup_insert_ne by done. apply Hss.
Qed.

Lemma reachable_ok ss :
  reachable ss -> forall sid s, ss !! sid = Some s -> session_ok s.
Proof.
  induction 1 as [|ss img_bgr face_bbox sid _ IH].
  - intros sid s. unfold PPGAnalyzer_init. by rewrite lookup_empty.
  - by apply analyze_preserves_ok.
Qed.

Lemma session_of_insert (ss : Sessions) sid s :
  session_of (<[sid := s]> ss) sid = s.
Proof. unfold session_of. by rewrite lookup_insert_eq. Qed.

Lemma session_of_insert_ne (ss : Sessions) sid sid' s :
  sid <> sid' -> session_of (<[sid := s]> ss) sid' = session_of ss sid'.
Proof. intros Hne. unfold session_of. by rewrite lookup_insert_ne. Qed.

Lemma session_of_init sid : session_of PPGAnalyzer_init sid = PPGSession_init.
Proof. unfold session_of, PPGAnalyzer_init. by rewrite lookup_empty. Qed.

Lemma analyze_fail_session_of ss img_bgr face_bbox sid sid' :
  _extract_forehead_rgb img_bgr face_bbox = None ->
  session_of (snd (analyze ss img_bgr face_bbox sid)) sid' = session_of ss sid'.
Proof.
  intros E. rewrite (analyze_fail _ _ _ _ E). cbn [snd].
  destruct (ss !! sid) as [s0|] eqn:Es; [done |].
  destruct (decide (sid = sid')) as [<-|Hne].
  - rewrite session_of_insert. unfold session_of. by rewrite Es.
  - by rewrite session_of_insert_ne.
Qed.

Lemma analyze_other ss img_bgr face_bbox sid sid' :
  sid <> sid' ->
  snd (analyze ss img_bgr face_bbox sid) !! sid' = ss !! sid'.
Proof.
  intros Hne.
  destruct (_extract_forehead_rgb img_bgr face_bbox) as [[[rv gv] bv]|] eqn:E.
  - rewrite (analyze_ok _ _ _ _ _ _ _ E). cbn [snd].
    by rewrite lookup_insert_ne.
  - rewrite (analyze_fail _ _ _ _ E). cbn [snd].
    destruct (ss !! sid); [done | by rewrite lookup_insert_ne].
Qed.

Lemma analyze_own ss1 ss2 img_bgr face_bbox sid :
  session_of ss1 sid = session_of ss2 sid ->
  fst (analyze ss1 img_bgr face_bbox sid) = fst (analyze ss2 img_bgr face_bbox sid)
  /\ session_of (snd (analyze ss1 img_bgr face_bbox sid)) sid
     = session_of (snd (analyze ss2 img_bgr face_bbox sid)) sid.
Proof.
  intros Heq.
  destruct (_extract_forehead_rgb img_bgr face_bbox) as [[[rv gv] bv]|] eqn:E.
  - rewrite !(analyze_ok _ _ _ _ _ _ _ E). cbn [fst snd].
    rewrite !session_of_insert, Heq. done.
  - rewrite !(analyze_fail_session_of _ _ _ _ _ E).
    rewrite !(analyze_fail _ _ _ _ E). done.
Qed.

(** ** Channel alignment *)

(** C9.  In every store the analyzer can reach, the three channel buffers
    of every session have the same length; a call of [analyze] whose
    extraction succeeds appends one value to each of the three channels of
    the addressed session, and a call whose extraction fails leaves the
    three channels of every session as they were. *)
Theorem channels_aligned (ss : Sessions) (img_bgr : Frame)
    (face_bbox : option BBox) (sid : string) :
  reachable ss ->
  let ss' := snd (analyze ss img_bgr face_bbox sid) in
  (forall sid' s, ss' !! sid' = Some s ->
     length (r s) = length (g s) /\ length (g s) = length (b s))
  /\ match _extract_forehead_rgb img_bgr face_bbox with
     | Some (rv, gv, bv) =>
         r (session_of ss' sid) = deque_append MAX_LEN (r (session_of ss sid)) rv
         /\ g (session_of ss' sid) = deque_append MAX_LEN (g (session_of ss sid)) gv
         /\ b (session_of ss' sid) = deque_append MAX_LEN (b (session_of ss sid)) bv
     | None => forall sid', session_of ss' sid' = session_of ss sid'
     end.
Proof.
  intros Hreach ss'. split.
  - intros sid' s Hs.
    destruct (reachable_ok _ (reachable_analyze _ img_bgr face_bbox sid Hreach)
                _ _ Hs).
    done.
  - subst ss'.
    destruct (_extract_forehead_rgb img_bgr face_bbox) as [[[rv gv] bv]|] eqn:E.
    + rewrite (analyze_ok _ _ _ _ _ _ _ E). cbn [snd].
      by rewrite session_of_insert.
    + intros sid'. by apply analyze_fail_session_of.
Qed.

Lemma channels_aligned_witness :
  reachable PPGAnalyzer_init /\
  forall sid' s,
    snd (analyze PPGAnalyzer_init frame0 (Some bbox0) "cam") !! sid' = Some s ->
    length (r s) = length (g s) /\ length (g s) = length (b s).
Proof.
  split; [apply reachable_init |].
  apply (channels_aligned PPGAnalyzer_init frame0 (Some bbox0) "cam").
  apply reachable_init.
Defined.

(** ** FIFO eviction *)

Lemma append_all_channels (samples : list (R * R * R)) (s : PPGSession) :
  r (append_all s samples)
    = foldl (deque_append MAX_LEN) (r s) (map (fun p => p.1.1) samples)
  /\ g (append_all s samples)
    = foldl (deque_append MAX_LEN) (g s) (map (fun p => p.1.2) samples)
  /\ b (append_all s samples)
    = foldl (deque_append MAX_LEN) (b s) (map (fun p => p.2) samples).
Proof.
  revert s. induction samples as [|[[rv gv] bv] samples IH]; intros s.
  - done.
  - simpl. apply (IH (append s rv gv bv)).
Qed.

(** C7.  After more than [MAX_LEN] = 300 samples have been appended to a
    session, each channel holds exactly the 300 most recent values in the
    order of insertion; and after any number of appends a channel never
    holds more than 300 values. *)
Theorem buffer_fifo (s0 : PPGSession) (samples : list (R * R * R)) :
  session_ok s0 ->
  (MAX_LEN < length samples)%nat ->
  let s := append_all s0 samples in
  len s = MAX_LEN
  /\ r s = drop (length samples - MAX_LEN) (map (fun p => p.1.1) samples)
  /\ g s = drop (length samples - MAX_LEN) (map (fun p => p.1.2) samples)
  /\ b s = drop (length samples - MAX_LEN) (map (fun p => p.2) samples)
  /\ forall k, (len (append_all s0 (take k samples)) <= MAX_LEN)%nat.
Proof.
  intros [Hrg Hgb Hbound _ _ _] Hlen s.
  assert (Hg0 : (length (g s0) <= MAX_LEN)%nat) by lia.
  assert (Hb0 : (length (b s0) <= MAX_LEN)%nat) by lia.
  destruct (append_all_channels samples s0) as (Hr & Hg & Hb).
  fold s in Hr, Hg, Hb.
  rewrite foldl_deque_append in Hr, Hg, Hb by done.
  rewrite drop_app_ge, length_app, length_map in Hr, Hg, Hb
    by (rewrite length_app, length_map; lia).
  replace (length (r s0) + length samples - MAX_LEN - length (r s0))%nat
    with (length samples - MAX_LEN)%nat in Hr by lia.
  replace (length (g s0) + length samples - MAX_LEN - length (g s0))%nat
    with (length samples - MAX_LEN)%nat in Hg by lia.
  replace (length (b s0) + length samples - MAX_LEN - length (b s0))%nat
    with (length samples - MAX_LEN)%nat in Hb by lia.
  repeat split; try done.
  - unfold len. rewrite Hr, length_drop, length_map. lia.
  - intros k. unfold len.
    destruct (append_all_channels (take k samples) s0) as (Hk & _).
    rewrite Hk, foldl_deque_append by done.
    rewrite length_drop. lia.
Qed.

Lemma buffer_fifo_witness :
  let samples := repeat (1, 2, 3) 301 in
  session_ok PPGSession_init /\
  (MAX_LEN < length samples)%nat /\
  len (append_all PPGSession_init samples) = MAX_LEN.
Proof.
  intros samples.
  assert (H : (MAX_LEN < length samples)%nat)
    by (unfold samples; rewrite List.repeat_length; unfold MAX_LEN; lia).
  split; [apply session_init_ok |]. split; [exact H |].
  exact (proj1 (buffer_fifo PPGSession_init samples session_init_ok H)).
Defined.

(** ** Evaluating the extraction on the concrete frames *)

Lemma roi_frame_of_red c :
  forehead_roi (frame_of_red c) (Some bbox0) = (0, 1, 2, 6)%Z.
Proof. vm_compute. reflexivity. Qed.

Lemma roi_frame0_flat : forehead_roi frame0 (Some bbox_flat) = (0, 1, 0, 0)%Z.
Proof. vm_compute. reflexivity. Qed.

Lemma extract_frame_of_red c :
  exists rv gv bv,
    _extract_forehead_rgb (frame_of_red c) (Some bbox0) = Some (rv, gv, bv).
Proof.
  unfold _extract_forehead_rgb. rewrite roi_frame_of_red.
  case_decide; [lia | eauto].
Qed.

Lemma extract_frame0 :
  exists rv gv bv, _extract_forehead_rgb frame0 (Some bbox0) = Some (rv, gv, bv).
Proof. apply extract_frame_of_red. Qed.

Lemma extract_frame0_flat : _extract_forehead_rgb frame0 (Some bbox_flat) = None.
Proof.
  unfold _extract_forehead_rgb. rewrite roi_frame0_flat.
  case_decide; [done | lia].
Qed.

(** ** The two fixed return values of [analyze] *)

(** C4.  When the forehead extraction fails, [analyze] returns exactly 0.5
    and the colour buffer of every session is what it was (the store itself
    is untouched when the session id was already known, and gains an empty
    session otherwise).  When the extraction succeeds and the session holds
    fewer than [MIN_FRAMES] = 60 samples after the append, [analyze] returns
    exactly 0.0, whatever the buffered values are. *)
Theorem analyze_fixed_returns (ss : Sessions) (img_bgr : Frame)
    (face_bbox : option BBox) (sid : string) :
  let score := fst (analyze ss img_bgr face_bbox sid) in
  let ss' := snd (analyze ss img_bgr face_bbox sid) in
  (_extract_forehead_rgb img_bgr face_bbox = None ->
     score = 0.5
     /\ (forall sid', session_of ss' sid' = session_of ss sid')
     /\ (is_Some (ss !! sid) -> ss' = ss)
     /\ (ss !! sid = None -> ss' = <[sid := PPGSession_init]> ss))
  /\ (_extract_forehead_rgb img_bgr face_bbox <> None ->
      (len (session_of ss' sid) < MIN_FRAMES)%nat ->
      score = 0.0).
Proof.
  intros score ss'. subst score ss'. split.
  - intros E. split; [by rewrite (analyze_fail _ _ _ _ E) |].
    split; [intros sid'; by apply analyze_fail_session_of |].
    rewrite (analyze_fail _ _ _ _ E). cbn [snd].
    destruct (ss !! sid) as [s0|] eqn:Es; [done |].
    split; [by intros [? ?] | done].
  - intros E.
    destruct (_extract_forehead_rgb img_bgr face_bbox) as [[[rv gv] bv]|] eqn:E';
      [| done].
    rewrite (analyze_ok _ _ _ _ _ _ _ E'). cbn [fst snd].
    rewrite session_of_insert. intros Hlen. by case_decide.
Qed.

Lemma analyze_fixed_returns_witness :
  fst (analyze PPGAnalyzer_init frame0 (Some bbox_flat) "cam") = 0.5
  /\ fst (analyze PPGAnalyzer_init frame0 (Some bbox0) "cam") = 0.0.
Proof.
  split.
  - apply (analyze_fixed_returns PPGAnalyzer_init frame0 (Some bbox_flat) "cam").
    apply extract_frame0_flat.
  - apply (analyze_fixed_returns PPGAnalyzer_init frame0 (Some bbox0) "cam").
    + destruct extract_frame0 as (rv & gv & bv & ->). done.
    + destruct extract_frame0 as (rv & gv & bv & E).
      rewrite (analyze_ok _ _ _ _ _ _ _ E). cbn [snd].
      rewrite session_of_insert, session_of_init. unfold len, MIN_FRAMES.
      cbn [append r PPGSession_init].
      rewrite deque_append_length by (unfold MAX_LEN; simpl; lia).
      unfold MAX_LEN. simpl. lia.
Defined.

(** ** Range of the scores *)

Lemma fusion_unit (deep_conf ppg_score temp_score : R) :
  0 <= deep_conf <= 1 -> 0 <= ppg_score <= 1 -> 0 <= temp_score <= 1 ->
  0 <= fusion deep_conf ppg_score temp_score <= 1.
Proof. unfold fusion. lra. Qed.

Lemma compute_score_unit (s : PPGSession) : 0 <= _compute_score s <= 1.
Proof. apply clip_unit. Qed.

(** The divisors of [_compute_score] are positive on a session whose
    samples are non-negative. *)
Lemma divisors_positive (s : PPGSession) :
  session_ok s ->
  0 < Numpy.mean (r s) + 1e-6
  /\ 0 < Numpy.mean (g s) + 1e-6
  /\ 0 < Numpy.mean (b s) + 1e-6
  /\ 0 < Numpy.std (ComputeScore.Y s) + 1e-9
  /\ 0 < ComputeScore.power_all s.
Proof.
  intros [_ _ _ Hr Hg Hb].
  pose proof (mean_nonneg _ Hr). pose proof (mean_nonneg _ Hg).
  pose proof (mean_nonneg _ Hb).
  pose proof (std_nonneg (ComputeScore.Y s)).
  pose proof (sum_cabs_nonneg (ComputeScore.fft s)).
  unfold ComputeScore.power_all. repeat split; lra.
Qed.

(** C1.  From any store the analyzer can reach, and for any frame, box and
    session id, [analyze] returns a score in [0, 1]: it is 0.5 when the
    extraction fails, 0.0 when the session is still short, and the clipped
    anomaly value otherwise; every divisor of the score computation on the
    updated session (the three channel means plus 1e-6, the deviation of Y
    plus 1e-9, the total spectral magnitude plus 1e-9) is strictly
    positive, so no division by zero occurs.  The fused score is in [0, 1]
    whenever its three inputs are. *)
Theorem scores_bounded (ss : Sessions) (img_bgr : Frame)
    (face_bbox : option BBox) (sid : string) :
  reachable ss ->
  let score := fst (analyze ss img_bgr face_bbox sid) in
  let s' := session_of (snd (analyze ss img_bgr face_bbox sid)) sid in
  0 <= score <= 1
  /\ match _extract_forehead_rgb img_bgr face_bbox with
     | None => score = 0.5
     | Some _ =>
         if decide (len s' < MIN_FRAMES)%nat then score = 0.0
         else score = Numpy.clip (1.0 - ComputeScore.snr s' * 3) 0.0 1.0
     end
  /\ (0 < Numpy.mean (r s') + 1e-6
      /\ 0 < Numpy.mean (g s') + 1e-6
      /\ 0 < Numpy.mean (b s') + 1e-6
      /\ 0 < Numpy.std (ComputeScore.Y s') + 1e-9
      /\ 0 < ComputeScore.power_all s')
  /\ forall deep_conf ppg_score temp_score,
       0 <= deep_conf <= 1 -> 0 <= ppg_score <= 1 -> 0 <= temp_score <= 1 ->
       0 <= fusion deep_conf ppg_score temp_score <= 1.
Proof.
  intros Hreach score s'.
  assert (Hok : session_ok s').
  { apply session_of_ok, reachable_ok. by constructor. }
  split; [| split; [| split; [by apply divisors_positive | apply fusion_unit]]];
    subst score s'.
  - destruct (_extract_forehead_rgb img_bgr face_bbox) as [[[rv gv] bv]|] eqn:E.
    + rewrite (analyze_ok _ _ _ _ _ _ _ E). cbn [fst].
      case_decide; [lra | apply compute_score_unit].
    + rewrite (analyze_fail _ _ _ _ E). cbn [fst]. lra.
  - destruct (_extract_forehead_rgb img_bgr face_bbox) as [[[rv gv] bv]|] eqn:E.
    + rewrite (analyze_ok _ _ _ _ _ _ _ E). cbn [fst snd].
      rewrite session_of_insert. by case_decide.
    + by rewrite (analyze_fail _ _ _ _ E).
Qed.

Lemma scores_bounded_witness :
  reachable PPGAnalyzer_init
  /\ 0 <= fst (analyze PPGAnalyzer_init frame0 (Some bbox0) "cam") <= 1
  /\ 0 <= fusion 0.5 0.5 0.5 <= 1.
Proof.
  pose proof (scores_bounded PPGAnalyzer_init frame0 (Some bbox0) "cam"
                reachable_init) as (Hs & _ & _ & Hf).
  split; [apply reachable_init |]. split; [exact Hs |].
  apply Hf; lra.
Defined.

(** ** Session lookup and isolation *)

Lemma get_session_twice (ss : Sessions) (sid : string) :
  _get_session (snd (_get_session ss sid)) sid = _get_session ss sid.
Proof.
  unfold _get_session. destruct (ss !! sid) as [s|] eqn:Es; cbn [snd].
  - by rewrite Es.
  - by rewrite lookup_insert_eq.
Qed.

(** The log entries and the final buffer of one session do not depend on
    the calls made for other sessions, nor on what the store holds for
    them. *)
Lemma run_isolated (calls : list Call) (sid : string) :
  forall ss1 ss2 : Sessions,
    session_of ss1 sid = session_of ss2 sid ->
    filter (fun e => e.1 = sid) (run ss1 calls).1
      = (run ss2 (filter (fun c => call_sid c = sid) calls)).1
    /\ session_of (run ss1 calls).2 sid
       = session_of (run ss2 (filter (fun c => call_sid c = sid) calls)).2 sid.
Proof.
  induction calls as [|c calls IH]; intros ss1 ss2 Heq; [done |].
  cbn [run].
  destruct (analyze ss1 (call_img c) (call_bbox c) (call_sid c))
    as [score1 ss1'] eqn:E1.
  destruct (run ss1' calls) as [log1 ssf1] eqn:R1.
  destruct (decide (call_sid c = sid)) as [Hc|Hc].
  - rewrite (filter_cons_True (fun c => call_sid c = sid)) by done.
    cbn [run].
    destruct (analyze ss2 (call_img c) (call_bbox c) (call_sid c))
      as [score2 ss2'] eqn:E2.
    destruct (run ss2' _) as [log2 ssf2] eqn:R2.
    cbn [fst snd].
    rewrite (filter_cons_True (fun e : string * R => e.1 = sid)) by done.
    rewrite <- Hc in Heq.
    destruct (analyze_own ss1 ss2 (call_img c) (call_bbox c) _ Heq)
      as [Hs Hb].
    rewrite E1, E2 in Hs, Hb. cbn [fst snd] in Hs, Hb. rewrite Hc in Hb.
    destruct (IH ss1' ss2' Hb) as [IH1 IH2].
    rewrite R1, R2 in IH1, IH2. cbn [fst snd] in IH1, IH2.
    by rewrite Hs, IH1, IH2.
  - rewrite (filter_cons_False (fun c => call_sid c = sid)) by done.
    cbn [fst snd].
    rewrite (filter_cons_False (fun e : string * R => e.1 = sid)) by done.
    assert (Hb : session_of ss1' sid = session_of ss2 sid).
    { rewrite <- Heq. unfold session_of.
      replace ss1' with (analyze ss1 (call_img c) (call_bbox c) (call_sid c)).2
        by (by rewrite E1).
      by rewrite analyze_other. }
    destruct (IH ss1' ss2 Hb) as [IH1 IH2].
    by rewrite R1 in IH1, IH2.
Qed.

(** C8.  Looking a session up twice gives the same session and leaves the
    store as the first lookup left it; the first lookup creates an empty
    session only for an id that is not stored yet, and touches no other
    id.  A call of [analyze] for session [sid] changes at most the entry
    of [sid], and what it returns depends on the store only through the
    entry of [sid]; hence in any interleaving of calls for several
    sessions, the scores returned for one session and its final buffer are
    those of that session's calls run alone. *)
Theorem sessions_isolated (ss : Sessions) (sid : string) :
  (let '(s1, ss1) := _get_session ss sid in
   _get_session ss1 sid = (s1, ss1)
   /\ s1 = session_of ss sid
   /\ (is_Some (ss !! sid) -> ss1 = ss)
   /\ (ss !! sid = None -> ss1 = <[sid := PPGSession_init]> ss)
   /\ forall sid', sid <> sid' -> ss1 !! sid' = ss !! sid')
  /\ (forall img_bgr face_bbox sid', sid <> sid' ->
        (analyze ss img_bgr face_bbox sid).2 !! sid' = ss !! sid')
  /\ (forall ss2 img_bgr face_bbox,
        session_of ss sid = session_of ss2 sid ->
        (analyze ss img_bgr face_bbox sid).1 = (analyze ss2 img_bgr face_bbox sid).1
        /\ session_of (analyze ss img_bgr face_bbox sid).2 sid
           = session_of (analyze ss2 img_bgr face_bbox sid).2 sid)
  /\ (forall calls,
        filter (fun e => e.1 = sid) (run ss calls).1
          = (run ss (filter (fun c => call_sid c = sid) calls)).1
        /\ session_of (run ss calls).2 sid
           = session_of (run ss (filter (fun c => call_sid c = sid) calls)).2 sid).
Proof.
  split; [| split; [| split]].
  - pose proof (get_session_twice ss sid) as Htwice.
    unfold session_of. unfold _get_session in *.
    destruct (ss !! sid) as [s|] eqn:Es; cbn [snd] in Htwice.
    + repeat split; try done.
    + split; [done |]. split; [done |]. split; [by intros [? ?] |].
      split; [done |]. intros sid' Hne. by rewrite lookup_insert_ne.
  - intros img_bgr face_bbox sid' Hne. by apply analyze_other.
  - intros ss2 img_bgr face_bbox Heq. by apply analyze_own.
  - intros calls. by apply run_isolated.
Qed.

Lemma sessions_isolated_witness :
  filter (fun e => e.1 = "a")
    (run PPGAnalyzer_init [call_a; call_b; call_b; call_a]).1
  = (run PPGAnalyzer_init [call_a; call_a]).1.
Proof.
  exact (proj1 (proj2 (proj2 (proj2 (sessions_isolated PPGAnalyzer_init "a")))
                  [call_a; call_b; call_b; call_a])).
Defined.

(** ** The endpoints *)

Section EndpointFacts.

Context (imdecode : string -> option Frame).
Context (decode_error : string -> string).
Context (Face : Type) (preprocess_frame : Frame -> option Face * option BBox).
Context (predict : Face -> R).
Context (Checker : Type).
Context (temporal_update : Checker -> string -> R -> Z -> R * Checker).

Local Abbreviation analyze_frame' :=
  (analyze_frame imdecode decode_error Face
    preprocess_frame predict Checker temporal_update).
Local Abbreviation analyze_batch_loop' :=
  (analyze_batch_loop imdecode decode_error Face
     preprocess_frame predict Checker temporal_update).
Local Abbreviation analyze_batch' :=
  (analyze_batch imdecode decode_error Face
    preprocess_frame predict Checker temporal_update).

(** A frame whose image does not decode, or in which no face is found,
    raises and leaves the singletons alone. *)
Lemma analyze_frame_invalid req w :
  imdecode (strip_data_uri (frame_b64 req)) = None ->
  analyze_frame' req w
  = (Raise (mkHTTPException 400
              ("Invalid image data: "
               +:+ decode_error (strip_data_uri (frame_b64 req)))), w).
Proof.
  intros E. unfold analyze_frame, bind, _decode_frame. by rewrite E.
Qed.

Lemma analyze_frame_no_face req w img face_bbox :
  imdecode (strip_data_uri (frame_b64 req)) = Some img ->
  preprocess_frame img = (None, face_bbox) ->
  analyze_frame' req w
  = (Raise (mkHTTPException 422 "No face detected in frame"), w).
Proof.
  intros E P. unfold analyze_frame, bind, _decode_frame. rewrite E.
  unfold ret at 1. by rewrite P.
Qed.

(** A frame with a face goes through the three analyses and the fusion. *)
Lemma analyze_frame_face req w img face face_bbox :
  imdecode (strip_data_uri (frame_b64 req)) = Some img ->
  preprocess_frame img = (Some face, face_bbox) ->
  let deep_conf := predict face in
  let a := analyze (_ppg_analyzer w) img face_bbox (session_id req) in
  let t := temporal_update (_temporal_checker w) (session_id req) deep_conf
             (frame_number req) in
  let combined := fusion deep_conf a.1 t.1 in
  analyze_frame' req w
  = (Return {| res_frame_number := frame_number req;
               deepfake_confidence := round deep_conf 4;
               ppg_score := round a.1 4;
               temporal_score := round t.1 4;
               combined_score := round combined 4;
               classification := (_classify combined).1;
               threat_level := (_classify combined).2 |},
     {| _ppg_analyzer := a.2; _temporal_checker := t.2 |}).
Proof.
  intros E P deep_conf a t combined.
  unfold analyze_frame, bind, _decode_frame. rewrite E.
  unfold ret at 1. rewrite P.
  unfold ppg_analyze, temporal_checker_update. fold a.
  destruct a as [ps ss'] eqn:Ea. cbn [_temporal_checker _ppg_analyzer].
  subst deep_conf. fold t. destruct t as [ts tc'] eqn:Et.
  subst combined. cbn [fst snd].
  by destruct (_classify _) as [cls threat].
Qed.

(** *** The batch loop *)

Lemma set_session_id_same f f' sid :
  same_payload f f' -> set_session_id f sid = set_session_id f' sid.
Proof. intros (Hb & Hn & Ht). unfold set_session_id. by rewrite Hb, Hn, Ht. Qed.

Lemma batch_loop_ignores_ids sid frames frames' :
  Forall2 same_payload frames frames' ->
  forall acc w,
    analyze_batch_loop' sid frames acc w = analyze_batch_loop' sid frames' acc w.
Proof.
  induction 1 as [|f f' frames frames' Hf _ IH]; intros acc w; [done |].
  cbn [analyze_batch_loop].
  rewrite (set_session_id_same f f' sid Hf).
  destruct (analyze_frame' _ w) as [[res|e] w']; apply IH.
Qed.

(** The loop keeps what it had collected and adds the returned results
    of the frames, in order. *)
Lemma batch_loop_results sid frames :
  forall acc w,
    (analyze_batch_loop' sid frames acc w).1
    = acc ++ returned (frame_outcomes imdecode decode_error Face
                         preprocess_frame predict
                         Checker temporal_update sid frames w).
Proof.
  induction frames as [|f frames IH]; intros acc w.
  - cbn. by rewrite app_nil_r.
  - cbn [analyze_batch_loop frame_outcomes].
    destruct (analyze_frame' _ w) as [[res|e] w'].
    + rewrite IH. cbn. by rewrite <- app_assoc.
    + rewrite IH. done.
Qed.

(** One frame analysed under session id [sid] leaves the PPG sessions of
    the other ids alone. *)
Lemma analyze_frame_other req w sid' :
  session_id req <> sid' ->
  _ppg_analyzer (analyze_frame' req w).2 !! sid' = _ppg_analyzer w !! sid'.
Proof.
  intros Hne.
  destruct (imdecode (strip_data_uri (frame_b64 req))) as [img|] eqn:E.
  - destruct (preprocess_frame img) as [[face|] face_bbox] eqn:P.
    + rewrite (analyze_frame_face _ _ _ _ _ E P). cbn [snd _ppg_analyzer].
      by apply analyze_other.
    + by rewrite (analyze_frame_no_face _ _ _ _ E P).
  - by rewrite (analyze_frame_invalid _ _ E).
Qed.

Lemma batch_loop_other sid frames sid' :
  sid <> sid' ->
  forall acc w,
    _ppg_analyzer (analyze_batch_loop' sid frames acc w).2 !! sid'
    = _ppg_analyzer w !! sid'.
Proof.
  intros Hne. induction frames as [|f frames IH]; intros acc w; [done |].
  cbn [analyze_batch_loop].
  pose proof (analyze_frame_other (set_session_id f sid) w sid' Hne) as Hf.
  destruct (analyze_frame' _ w) as [[res|e] w']; rewrite IH; exact Hf.
Qed.

End EndpointFacts.

(** *** The session id a batch runs under *)

Section BatchLog.

Context (imdecode : string -> option Frame).
Context (decode_error : string -> string).
Context (Face : Type) (preprocess_frame : Frame -> option Face * option BBox).
Context (predict : Face -> R).

Local Abbreviation analyze_frame_log :=
  (analyze_frame imdecode decode_error Face
    preprocess_frame predict _ temporal0).
Local Abbreviation analyze_batch_loop_log :=
  (analyze_batch_loop imdecode decode_error Face
    preprocess_frame predict _ temporal0).

(** With the logging checker, the log grows by entries that all carry
    the session id of the request. *)
Lemma analyze_frame_logs req w :
  exists entries,
    _temporal_checker (analyze_frame_log req w).2
      = _temporal_checker w ++ entries
    /\ Forall (fun e => e.1 = session_id req) entries.
Proof.
  destruct (imdecode (strip_data_uri (frame_b64 req))) as [img|] eqn:E.
  - destruct (preprocess_frame img) as [[face|] face_bbox] eqn:P.
    + rewrite (analyze_frame_face _ _ _ _ _ _ _ _ _ _ _ _ E P).
      cbn [snd _temporal_checker temporal0].
      eexists. split; [done |]. by repeat constructor.
    + rewrite (analyze_frame_no_face _ _ _ _ _ _ _ _ _ _ _ E P).
      exists []. by rewrite app_nil_r.
  - rewrite (analyze_frame_invalid _ _ _ _ _ _ _ _ _ E).
    exists []. by rewrite app_nil_r.
Qed.

Lemma batch_loop_logs sid frames :
  forall acc w,
  exists entries,
    _temporal_checker (analyze_batch_loop_log sid frames acc w).2
      = _temporal_checker w ++ entries
    /\ Forall (fun e => e.1 = sid) entries.
Proof.
  induction frames as [|f frames IH]; intros acc w.
  - exists []. by rewrite app_nil_r.
  - cbn [analyze_batch_loop].
    destruct (analyze_frame_logs (set_session_id f sid) w)
      as (es & Hes & Hall).
    destruct (analyze_frame_log _ w) as [[res|e] w'];
      cbn [snd] in Hes;
      [destruct (IH (acc ++ [res]) w') as (es' & Hes' & Hall')
      |destruct (IH acc w') as (es' & Hes' & Hall')];
      exists (es ++ es');
      (split; [by rewrite Hes', Hes, app_assoc | by apply Forall_app]).
Qed.

End BatchLog.

(** C10.  [analyze_batch] analyses every frame under the session id of the
    batch: two batches with the same batch id whose frames differ only in
    their own session ids give the same response and the same final state;
    the PPG sessions of all ids other than the batch id are untouched; and
    every temporal update is called with the batch id (shown on a checker
    that logs the ids it is called with). *)
Theorem batch_session_override
    (imdecode : string -> option Frame)
    (decode_error : string -> string) (Face : Type)
    (preprocess_frame : Frame -> option Face * option BBox)
    (predict : Face -> R) :
  (forall Checker (temporal_update : Checker -> string -> R -> Z -> R * Checker)
          (req req' : BatchFrameRequest) w,
      batch_session_id req = batch_session_id req' ->
      Forall2 same_payload (frames req) (frames req') ->
      analyze_batch imdecode decode_error Face preprocess_frame predict Checker
        temporal_update req w
      = analyze_batch imdecode decode_error Face
          preprocess_frame predict Checker temporal_update req' w)
  /\ (forall Checker (temporal_update : Checker -> string -> R -> Z -> R * Checker)
            (req : BatchFrameRequest) w sid',
        batch_session_id req <> sid' ->
        _ppg_analyzer
          (analyze_batch imdecode decode_error Face
             preprocess_frame predict Checker temporal_update req w).2 !! sid'
        = _ppg_analyzer w !! sid')
  /\ (forall (req : BatchFrameRequest) w,
        exists entries,
          _temporal_checker
            (analyze_batch imdecode decode_error Face preprocess_frame predict _
               temporal0 req w).2
          = _temporal_checker w ++ entries
          /\ Forall (fun e => e.1 = batch_session_id req) entries).
Proof.
  split; [| split].
  - intros Checker temporal_update req req' w Hsid Hframes.
    unfold analyze_batch. rewrite <- Hsid.
    by rewrite (batch_loop_ignores_ids _ _ _ _ _ _ _ _ _ _ Hframes).
  - intros Checker temporal_update req w sid' Hne.
    pose proof (batch_loop_other imdecode decode_error Face
                  preprocess_frame predict Checker
                  temporal_update _ (frames req) sid' Hne [] w) as Hloop.
    unfold analyze_batch.
    destruct (analyze_batch_loop _ _ _ _ _ _ _ _ _ _ w) as [rs w'].
    cbn [snd] in Hloop.
    destruct rs as [|r0 rs]; [done |].
    by destruct (_classify _).
  - intros req w.
    destruct (batch_loop_logs imdecode decode_error Face
                preprocess_frame predict
                (batch_session_id req) (frames req) [] w)
      as (es & Hes & Hall).
    exists es. split; [| done].
    unfold analyze_batch.
    destruct (analyze_batch_loop _ _ _ _ _ _ _ _ _ _ w) as [rs w'].
    cbn [snd] in Hes.
    destruct rs as [|r0 rs]; [done |].
    by destruct (_classify _).
Qed.

Lemma batch_session_override_witness :
  batch_session_id batch_mixed = batch_session_id batch_uniform
  /\ Forall2 same_payload (frames batch_mixed) (frames batch_uniform)
  /\ analyze_batch0 batch_mixed world0 = analyze_batch0 batch_uniform world0.
Proof.
  assert (H : Forall2 same_payload (frames batch_mixed) (frames batch_uniform))
    by (repeat constructor).
  split; [reflexivity |]. split; [exact H |].
  exact (proj1 (batch_session_override imdecode0 decode_error0 Frame
           preprocess0 predict0)
           _ temporal0 batch_mixed batch_uniform world0 eq_refl H).
Defined.

(** ** Fusion and classification *)

Lemma classify_real (s : R) : _classify s = ("real", "safe") <-> s < 0.30.
Proof.
  unfold _classify. repeat case_decide; split; intros Hs; try done; lra.
Qed.

Lemma classify_suspicious (s : R) :
  _classify s = ("suspicious", "warning") <-> 0.30 <= s < 0.70.
Proof.
  unfold _classify. repeat case_decide; split; intros Hs; try done; lra.
Qed.

Lemma classify_fake (s : R) : _classify s = ("fake", "danger") <-> 0.70 <= s.
Proof.
  unfold _classify. repeat case_decide; split; intros Hs; try done; lra.
Qed.

(** C2.  [analyze_frame] classifies a frame by the weighted sum
    [0.60 * deep_conf + 0.20 * ppg_score + 0.20 * temp_score] of the three
    scores it has just obtained (and reports that sum rounded to four
    decimals); a score [s] is classified (real, safe)
    exactly when [s < 0.30], (suspicious, warning) exactly when
    [0.30 <= s < 0.70] and (fake, danger) exactly when [0.70 <= s]; so 0.30
    itself is suspicious and 0.70 itself is fake. *)
Theorem fusion_classification
    (imdecode : string -> option Frame)
    (decode_error : string -> string) (Face : Type)
    (preprocess_frame : Frame -> option Face * option BBox)
    (predict : Face -> R) (Checker : Type)
    (temporal_update : Checker -> string -> R -> Z -> R * Checker) :
  (forall req w img face face_bbox,
      imdecode (strip_data_uri (frame_b64 req)) = Some img ->
      preprocess_frame img = (Some face, face_bbox) ->
      let deep_conf := predict face in
      let ppg_score :=
        (analyze (_ppg_analyzer w) img face_bbox (session_id req)).1 in
      let temp_score :=
        (temporal_update (_temporal_checker w) (session_id req) deep_conf
           (frame_number req)).1 in
      exists res w',
        analyze_frame imdecode decode_error Face
          preprocess_frame predict Checker
          temporal_update req w = (Return res, w')
        /\ (classification res, threat_level res)
           = _classify (0.60 * deep_conf + 0.20 * ppg_score + 0.20 * temp_score)
        /\ combined_score res
           = round (0.60 * deep_conf + 0.20 * ppg_score + 0.20 * temp_score) 4)
  /\ (forall deep_conf ppg_score temp_score,
        fusion deep_conf ppg_score temp_score
        = 0.60 * deep_conf + 0.20 * ppg_score + 0.20 * temp_score)
  /\ (forall s,
        (_classify s = ("real", "safe") <-> s < 0.30)
        /\ (_classify s = ("suspicious", "warning") <-> 0.30 <= s < 0.70)
        /\ (_classify s = ("fake", "danger") <-> 0.70 <= s))
  /\ _classify 0.30 = ("suspicious", "warning")
  /\ _classify 0.70 = ("fake", "danger").
Proof.
  split; [| split; [done | split; [| split]]].
  - intros req w img face face_bbox E P deep_conf ppg_score temp_score.
    eexists _, _.
    split; [apply (analyze_frame_face _ _ _ _ _ _ _ _ _ _ _ _ E P) |].
    cbn [classification threat_level combined_score]. unfold fusion.
    by destruct (_classify _).
  - intros s. split; [apply classify_real |].
    split; [apply classify_suspicious | apply classify_fake].
  - apply classify_suspicious. lra.
  - apply classify_fake. lra.
Qed.

Lemma fusion_classification_witness :
  exists res w',
    analyze_frame0 (req_a 0) world0 = (Return res, w')
    /\ (classification res, threat_level res)
       = _classify (0.60 * predict0 (frame_of_red "2")
                    + 0.20 * (analyze PPGAnalyzer_init (frame_of_red "2")
                                (Some bbox0) "a").1
                    + 0.20 * 0)
    /\ combined_score res
       = round (0.60 * predict0 (frame_of_red "2")
                + 0.20 * (analyze PPGAnalyzer_init (frame_of_red "2")
                            (Some bbox0) "a").1
                + 0.20 * 0) 4.
Proof.
  exact (proj1 (fusion_classification imdecode0 decode_error0 Frame
                  preprocess0 predict0 _ temporal0)
           (req_a 0) world0 (frame_of_red "2") (frame_of_red "2") (Some bbox0)
           eq_refl eq_refl).
Defined.

(** ** Rounding *)

Lemma Int_part_IZR (z : Z) : Int_part (IZR z) = z.
Proof. symmetry. apply Int_part_spec. lra. Qed.

Lemma round_half_even_IZR (z : Z) : round_half_even (IZR z) = z.
Proof.
  unfold round_half_even. rewrite Int_part_IZR.
  case_decide; [done | lra].
Qed.

Lemma round_exact (z : Z) : round (IZR z / 10 ^ 4) 4 = IZR z / 10 ^ 4.
Proof.
  unfold round. replace (IZR z / 10 ^ 4 * 10 ^ 4) with (IZR z) by (field; lra).
  by rewrite round_half_even_IZR.
Qed.

Lemma round_half_even_near (y : R) :
  - (1 / 2) <= IZR (round_half_even y) - y <= 1 / 2.
Proof.
  unfold round_half_even.
  destruct (base_Int_part y) as [Hlo Hhi].
  repeat case_decide; try destruct (Z.even _); rewrite ?plus_IZR; lra.
Qed.

Lemma round_near (x : R) : Rabs (round x 4 - x) <= 0.00005.
Proof.
  unfold round.
  pose proof (round_half_even_near (x * 10 ^ 4)) as H.
  apply Rabs_le.
  set (k := IZR (round_half_even (x * 10 ^ 4))) in *.
  assert (H4 : 10 ^ 4 = 10000) by (simpl; lra).
  rewrite H4 in *. lra.
Qed.

(** ** Batch aggregation *)

Section BatchAggregate.

Context (imdecode : string -> option Frame).
Context (decode_error : string -> string).
Context (Face : Type) (preprocess_frame : Frame -> option Face * option BBox).
Context (predict : Face -> R).
Context (Checker : Type).
Context (temporal_update : Checker -> string -> R -> Z -> R * Checker).

Local Abbreviation analyze_batch' :=
  (analyze_batch imdecode decode_error Face
    preprocess_frame predict Checker temporal_update).
Local Abbreviation frame_outcomes' :=
  (frame_outcomes imdecode decode_error Face preprocess_frame predict Checker
     temporal_update).

(** The response of [analyze_batch] in terms of the per-frame outcomes. *)
Lemma analyze_batch_response (req : BatchFrameRequest) w :
  let rs := returned (frame_outcomes' (batch_session_id req) (frames req) w) in
  (analyze_batch' req w).1
  = match rs with
    | [] => Raise (mkHTTPException 422 "No faces detected in any frame")
    | _ :: _ =>
        let avg := Numpy.mean (map combined_score rs) in
        Return {| results := rs;
                  res_session_id := batch_session_id req;
                  avg_combined_score := round avg 4;
                  overall_verdict := (_classify avg).2 |}
    end.
Proof.
  intros rs.
  pose proof (batch_loop_results imdecode decode_error Face
                preprocess_frame predict
                Checker temporal_update (batch_session_id req) (frames req)
                [] w) as Hloop.
  cbn [app] in Hloop. fold rs in Hloop.
  unfold analyze_batch.
  destruct (analyze_batch_loop _ _ _ _ _ _ _ _ _ _ w) as [rs' w'].
  cbn [fst] in Hloop. subst rs'.
  destruct rs as [|r0 rs]; [done |].
  unfold Numpy.mean. rewrite length_map.
  by destruct (_classify _).
Qed.

End BatchAggregate.

(** *** The five-frame batch on the stand-in collaborators *)

Lemma analyze_short ss img_bgr face_bbox sid :
  _extract_forehead_rgb img_bgr face_bbox <> None ->
  (len (session_of ss sid) < 59)%nat ->
  (analyze ss img_bgr face_bbox sid).1 = 0.0
  /\ len (session_of (analyze ss img_bgr face_bbox sid).2 sid)
     = S (len (session_of ss sid)).
Proof.
  intros E Hlen.
  destruct (_extract_forehead_rgb img_bgr face_bbox) as [[[rv gv] bv]|] eqn:E';
    [| done].
  rewrite (analyze_ok _ _ _ _ _ _ _ E'). cbn [fst snd].
  rewrite session_of_insert.
  assert (Hl : len (append (session_of ss sid) rv gv bv)
               = S (len (session_of ss sid))).
  { unfold len in *. cbn [append r].
    rewrite deque_append_length by (unfold MAX_LEN; lia).
    unfold MAX_LEN. lia. }
  split; [| done]. rewrite Hl. unfold MIN_FRAMES. case_decide; [done | lia].
Qed.

Lemma step0_face (req : FrameRequest) w (cb : byte) :
  imdecode0 (strip_data_uri (frame_b64 req)) = Some (frame_of_red cb) ->
  Byte.eqb cb x20 = false ->
  (len (session_of (_ppg_analyzer w) (session_id req)) < 59)%nat ->
  exists res w',
    analyze_frame0 req w = (Return res, w')
    /\ combined_score res = round (fusion (to_float cb / 300) 0.0 0) 4
    /\ len (session_of (_ppg_analyzer w') (session_id req))
       = S (len (session_of (_ppg_analyzer w) (session_id req))).
Proof.
  intros E Hface Hlen.
  assert (P : preprocess0 (frame_of_red cb)
              = (Some (frame_of_red cb), Some bbox0)).
  { unfold preprocess0. cbn [pixel frame_of_red red]. by rewrite Hface. }
  assert (Hex : _extract_forehead_rgb (frame_of_red cb) (Some bbox0) <> None).
  { destruct (extract_frame_of_red cb) as (rv & gv & bv & ->). done. }
  destruct (analyze_short (_ppg_analyzer w) (frame_of_red cb) (Some bbox0)
              (session_id req) Hex Hlen) as [Hscore Hlen'].
  eexists _, _. split.
  - unfold analyze_frame0. apply (analyze_frame_face _ _ _ _ _ _ _ _ _ _ _ _ E P).
  - cbn [combined_score _ppg_analyzer temporal0 fst]. rewrite Hscore.
    split; [reflexivity | exact Hlen'].
Qed.

Lemma step0_noface (req : FrameRequest) w :
  imdecode0 (strip_data_uri (frame_b64 req)) = Some (frame_of_red x20) ->
  analyze_frame0 req w
  = (Raise (mkHTTPException 422 "No face detected in frame"), w).
Proof.
  intros E. unfold analyze_frame0.
  by apply (analyze_frame_no_face _ _ _ _ _ _ _ _ _ _ None E).
Qed.

Lemma score_a : round (fusion (to_float "2" / 300) 0.0 0) 4 = 0.1.
Proof.
  replace (fusion (to_float "2" / 300) 0.0 0) with (IZR 1000 / 10 ^ 4).
  - rewrite round_exact. simpl. lra.
  - unfold fusion, to_float. simpl. lra.
Qed.

Lemma score_b : round (fusion (to_float "d" / 300) 0.0 0) 4 = 0.2.
Proof.
  replace (fusion (to_float "d" / 300) 0.0 0) with (IZR 2000 / 10 ^ 4).
  - rewrite round_exact. simpl. lra.
  - unfold fusion, to_float. simpl. lra.
Qed.

Lemma batch_mixed_scores :
  map combined_score
    (returned (frame_outcomes imdecode0 decode_error0 Frame
                 preprocess0 predict0 _ temporal0
                 "s" (frames batch_mixed) world0))
  = [0.1; 0.1; 0.2].
Proof.
  cbn [frames batch_mixed frame_outcomes].
  assert (L0 : (len (session_of (_ppg_analyzer world0) "s") = 0)%nat)
    by (cbn [_ppg_analyzer world0]; by rewrite session_of_init).
  destruct (step0_face (set_session_id (req_a 0) "s") world0 "2"
              eq_refl eq_refl) as (r1 & w1 & E1 & C1 & L1);
    [cbn [session_id set_session_id]; lia |].
  unfold analyze_frame0 in E1. rewrite E1.
  cbn [session_id set_session_id] in L1. rewrite L0 in L1.
  pose proof (step0_noface (set_session_id (req_noface 1) "s") w1 eq_refl) as N1.
  unfold analyze_frame0 in N1. rewrite N1.
  destruct (step0_face (set_session_id (req_a 2) "s") w1 "2"
              eq_refl eq_refl) as (r2 & w2 & E2 & C2 & L2);
    [cbn [session_id set_session_id]; lia |].
  unfold analyze_frame0 in E2. rewrite E2.
  cbn [session_id set_session_id] in L2. rewrite L1 in L2.
  pose proof (step0_noface (set_session_id (req_noface 3) "s") w2 eq_refl) as N2.
  unfold analyze_frame0 in N2. rewrite N2.
  destruct (step0_face (set_session_id (req_b 4) "s") w2 "d"
              eq_refl eq_refl) as (r3 & w3 & E3 & C3 & L3);
    [cbn [session_id set_session_id]; lia |].
  unfold analyze_frame0 in E3. rewrite E3.
  cbn [returned flat_map app map].
  by rewrite C1, C2, C3, score_a, score_b.
Qed.

Lemma batch_nofaces_outcomes :
  returned (frame_outcomes imdecode0 decode_error0 Frame
              preprocess0 predict0 _ temporal0
              "s" (frames batch_nofaces) world0) = [].
Proof.
  cbn [frames batch_nofaces frame_outcomes].
  assert (N : forall n w,
             analyze_frame imdecode0 decode_error0 Frame
               preprocess0 predict0 _ temporal0
               (set_session_id (req_noface n) "s") w
             = (Raise (mkHTTPException 422 "No face detected in frame"), w))
    by (intros n w; by apply (step0_noface (set_session_id (req_noface n) "s"))).
  by rewrite !N.
Qed.

(** C6, as stated, fails on the five-frame batch with three results: the
    returned aggregate is not the mean of the three combined scores. *)
Lemma batch_aggregate_is_rounded :
  exists res,
    (analyze_batch0 batch_mixed world0).1 = Return res
    /\ map combined_score (results res) = [0.1; 0.1; 0.2]
    /\ avg_combined_score res <> Numpy.mean (map combined_score (results res)).
Proof.
  unfold analyze_batch0. rewrite analyze_batch_response.
  pose proof batch_mixed_scores as Hsc.
  cbn [batch_session_id batch_mixed] in *.
  destruct (returned _) as [|r0 rs]; [done |].
  eexists. split; [reflexivity |].
  cbn [results avg_combined_score]. split; [done |].
  rewrite Hsc. unfold Numpy.mean, round. simpl.
  set (k := round_half_even _). intros H.
  assert (Hk : IZR (k * 3) = IZR 4000) by (rewrite mult_IZR; lra).
  apply eq_IZR in Hk. lia.
Qed.

(** C6, amended.  The frames of a batch are analysed in order under the
    batch's session id.  If none of them returns a result, [analyze_batch]
    raises the 422 error "No faces detected in any frame"; otherwise it
    returns exactly the results of the frames that returned one, and its
    aggregate, reported to four decimals, lies within 0.00005 of the
    arithmetic mean of their combined scores (the sum divided by their
    number, not by the number of submitted frames).  So the operation fails
    if and only if no frame produced a result. *)
Theorem batch_aggregate
    (imdecode : string -> option Frame)
    (decode_error : string -> string) (Face : Type)
    (preprocess_frame : Frame -> option Face * option BBox)
    (predict : Face -> R) (Checker : Type)
    (temporal_update : Checker -> string -> R -> Z -> R * Checker)
    (req : BatchFrameRequest) (w : Singletons Checker) :
  let out :=
    (analyze_batch imdecode decode_error Face preprocess_frame predict Checker
       temporal_update req w).1 in
  let rs :=
    returned (frame_outcomes imdecode decode_error Face
                preprocess_frame predict Checker
                temporal_update (batch_session_id req) (frames req) w) in
  let mean := Numpy.sum (map combined_score rs) / INR (length rs) in
  (rs = [] ->
     out = Raise (mkHTTPException 422 "No faces detected in any frame"))
  /\ (rs <> [] ->
      exists res,
        out = Return res
        /\ results res = rs
        /\ Rabs (avg_combined_score res - mean) <= 0.00005)
  /\ ((exists e, out = Raise e) <-> rs = []).
Proof.
  intros out rs mean. subst out. rewrite analyze_batch_response. fold rs.
  assert (Hmean : Numpy.mean (map combined_score rs) = mean)
    by (unfold Numpy.mean, mean; by rewrite length_map).
  destruct rs as [|r0 rs'] eqn:Ers.
  - split; [done |]. split; [done |]. split; [done | eauto].
  - rewrite <- Ers in *. split; [by rewrite Ers |]. split.
    + intros _. eexists. split; [reflexivity |].
      cbn [results avg_combined_score]. rewrite Hmean.
      split; [done | apply round_near].
    + split; [by intros [e He] | by rewrite Ers].
Qed.

Lemma batch_aggregate_witness :
  (analyze_batch0 batch_nofaces world0).1
    = Raise (mkHTTPException 422 "No faces detected in any frame")
  /\ exists res, (analyze_batch0 batch_mixed world0).1 = Return res
                 /\ length (results res) = 3%nat.
Proof.
  split.
  - apply (batch_aggregate imdecode0 decode_error0 Frame
             preprocess0 predict0 _ temporal0 batch_nofaces world0).
    apply batch_nofaces_outcomes.
  - pose proof batch_mixed_scores as Hsc.
    destruct (proj1 (proj2 (batch_aggregate imdecode0 decode_error0 Frame
                              preprocess0 predict0
                              _ temporal0 batch_mixed world0)))
      as (res & Hres & Hrs & _).
    + intros Hnil. cbn [batch_session_id batch_mixed] in Hnil.
      by rewrite Hnil in Hsc.
    + exists res. split; [exact Hres |].
      rewrite Hrs. cbn [batch_session_id batch_mixed].
      by rewrite <- (length_map combined_score), Hsc.
Defined.

(** ** Forehead extraction *)

Lemma int_frac_y (v : Z) : int (inject_Z v * FOREHEAD_FRAC_Y) = Z.quot (v * 15) 100.
Proof. reflexivity. Qed.

Lemma int_frac_x1 (v : Z) :
  int (inject_Z v * FOREHEAD_FRAC_X.1) = Z.quot (v * 25) 100.
Proof. reflexivity. Qed.

Lemma int_frac_x2 (v : Z) :
  int (inject_Z v * FOREHEAD_FRAC_X.2) = Z.quot (v * 75) 100.
Proof. reflexivity. Qed.

Lemma sum_map_seq (f : nat -> R) (lo n : nat) :
  Numpy.sum (map f (seq lo n)) = sum_range f lo n.
Proof.
  revert lo. induction n as [|n IH]; intros lo; simpl; [done |].
  by rewrite IH.
Qed.

Lemma sum_flat_map {A B} (h : B -> R) (f : A -> list B) (l : list A) :
  Numpy.sum (map h (flat_map f l))
  = Numpy.sum (map (fun a => Numpy.sum (map h (f a))) l).
Proof.
  induction l as [|a l IH]; simpl; [done |].
  by rewrite map_app, sum_app, IH.
Qed.

Lemma sum_range_ext (f f' : nat -> R) (lo n : nat) :
  (forall i, f i = f' i) -> sum_range f lo n = sum_range f' lo n.
Proof.
  intros Hf. revert lo. induction n as [|n IH]; intros lo; simpl; [done |].
  by rewrite Hf, IH.
Qed.

Lemma sum_slice (channel : Pixel -> byte) img y1 y2 x1 x2 :
  Numpy.sum (map (fun p => to_float (channel p)) (slice img y1 y2 x1 x2))
  = channel_sum channel img y1 y2 x1 x2.
Proof.
  unfold slice, channel_sum. rewrite sum_flat_map, sum_map_seq.
  apply sum_range_ext. intros y.
  by rewrite map_map, sum_map_seq.
Qed.

Lemma length_rows {A} (f : nat -> list A) (w : nat) (lo n : nat) :
  (forall y, length (f y) = w) ->
  length (flat_map f (seq lo n)) = (n * w)%nat.
Proof.
  intros Hf. revert lo. induction n as [|n IH]; intros lo; simpl; [done |].
  by rewrite length_app, Hf, IH.
Qed.

Lemma length_slice img y1 y2 x1 x2 :
  length (slice img y1 y2 x1 x2)
  = (Z.to_nat (y2 - y1) * Z.to_nat (x2 - x1))%nat.
Proof.
  unfold slice. apply length_rows. intros y.
  by rewrite length_map, length_seq.
Qed.

Lemma mean_slice (channel : Pixel -> byte) img y1 y2 x1 x2 :
  (y1 < y2)%Z -> (x1 < x2)%Z ->
  Numpy.mean (map (fun p => to_float (channel p)) (slice img y1 y2 x1 x2))
  = channel_sum channel img y1 y2 x1 x2 / IZR ((y2 - y1) * (x2 - x1)).
Proof.
  intros Hy Hx. unfold Numpy.mean.
  rewrite sum_slice, length_map, length_slice. f_equal.
  rewrite INR_IZR_INZ, Nat2Z.inj_mul, !Z2Nat.id by lia. done.
Qed.

Lemma forehead_roi_eq img face_bbox :
  forehead_roi img face_bbox
  = let '(fx, fy, fw, fh) := resolve_bbox img face_bbox in
    (Z.max 0 fy,
     Z.min (Z.of_nat (shape_h img)) (fy + Z.max 1 (Z.quot (fh * 15) 100)),
     Z.max 0 (fx + Z.quot (fw * 25) 100),
     Z.min (Z.of_nat (shape_w img)) (fx + Z.quot (fw * 75) 100))%Z.
Proof.
  unfold forehead_roi. by destruct (resolve_bbox img face_bbox) as [[[fx fy] fw] fh].
Qed.

Lemma forehead_roi_spec_eq img face_bbox :
  forehead_roi_spec img face_bbox
  = let '(fx, fy, fw, fh) := resolve_bbox img face_bbox in
    (Z.max 0 fy,
     Z.min (Z.of_nat (shape_h img)) (fy + Z.quot (fh * 15) 100),
     Z.max 0 (fx + Z.quot (fw * 25) 100),
     Z.min (Z.of_nat (shape_w img)) (fx + Z.quot (fw * 75) 100))%Z.
Proof.
  unfold forehead_roi_spec.
  by destruct (resolve_bbox img face_bbox) as [[[fx fy] fw] fh].
Qed.

(** C5, as stated, fails on a face box three pixels high: 15% of its height
    is less than one row, so the region of the design document is empty,
    but the code takes one row and returns a sample. *)
Lemma forehead_small_box :
  extract_forehead_sample_spec frame0 (Some bbox_small) = None
  /\ _extract_forehead_rgb frame0 (Some bbox_small) <> None.
Proof.
  split.
  - unfold extract_forehead_sample_spec.
    replace (forehead_roi_spec frame0 (Some bbox_small)) with (0, 0, 2, 6)%Z
      by (vm_compute; reflexivity).
    case_decide; [done | lia].
  - unfold _extract_forehead_rgb.
    replace (forehead_roi frame0 (Some bbox_small)) with (0, 1, 2, 6)%Z
      by (vm_compute; reflexivity).
    case_decide; [lia | done].
Qed.

(** C5, amended.  With [(fx, fy, fw, fh)] the face box (the whole frame when
    no box or an empty one is given), the forehead region consists of the
    rows from [fy] to [fy + max(1, trunc(0.15 * fh))] -- at least one row --
    and the columns from [fx + trunc(0.25 * fw)] to [fx + trunc(0.75 * fw)],
    both clamped to the frame.  The extraction fails exactly when that
    clamped region is empty; otherwise the region lies inside the frame and
    the result is, for each of R, G and B, the sum of the channel over the
    pixels of the region divided by their number.  Whenever 15% of the box
    height is at least one row, this is the sample of the design document. *)
Theorem forehead_extraction (img : Frame) (face_bbox : option BBox) :
  let H := Z.of_nat (shape_h img) in
  let W := Z.of_nat (shape_w img) in
  let '(fx, fy, fw, fh) := resolve_bbox img face_bbox in
  let y1 := Z.max 0 fy in
  let y2 := Z.min H (fy + Z.max 1 (Z.quot (fh * 15) 100)) in
  let x1 := Z.max 0 (fx + Z.quot (fw * 25) 100) in
  let x2 := Z.min W (fx + Z.quot (fw * 75) 100) in
  let area := IZR ((y2 - y1) * (x2 - x1)) in
  (face_bbox = None -> (fx, fy, fw, fh) = (0, 0, W, H)%Z)
  /\ (_extract_forehead_rgb img face_bbox = None
      <-> (y2 <= y1)%Z \/ (x2 <= x1)%Z)
  /\ ((y1 < y2)%Z -> (x1 < x2)%Z ->
      (0 <= y1 /\ y2 <= H /\ 0 <= x1 /\ x2 <= W)%Z
      /\ _extract_forehead_rgb img face_bbox
         = Some (channel_sum red img y1 y2 x1 x2 / area,
                 channel_sum green img y1 y2 x1 x2 / area,
                 channel_sum blue img y1 y2 x1 x2 / area))
  /\ ((1 <= Z.quot (fh * 15) 100)%Z ->
      _extract_forehead_rgb img face_bbox
      = extract_forehead_sample_spec img face_bbox).
Proof.
  intros H W.
  unfold _extract_forehead_rgb, extract_forehead_sample_spec.
  rewrite forehead_roi_eq, forehead_roi_spec_eq.
  destruct (resolve_bbox img face_bbox) as [[[fx fy] fw] fh] eqn:Ebox.
  subst H W.
  set (y1 := Z.max 0 fy).
  set (y2 := Z.min _ (fy + Z.max 1 _)).
  set (x1 := Z.max 0 (fx + _)).
  set (x2 := Z.min _ (fx + Z.quot (fw * 75) 100)).
  split; [| split; [| split]].
  - intros ->. by rewrite <- Ebox.
  - case_decide; split; try done; intros [?|?]; lia.
  - intros Hy Hx. split; [unfold y1, y2, x1, x2; lia |].
    case_decide; [lia |].
    by rewrite !mean_slice.
  - intros Hfh. unfold y2. by rewrite Z.max_r.
Qed.

Lemma forehead_extraction_witness :
  _extract_forehead_rgb frame0 (Some bbox0)
  = Some (channel_sum red frame0 0 1 2 6 / IZR 4,
          channel_sum green frame0 0 1 2 6 / IZR 4,
          channel_sum blue frame0 0 1 2 6 / IZR 4).
Proof.
  pose proof (forehead_extraction frame0 (Some bbox0)) as Hx.
  replace (resolve_bbox frame0 (Some bbox0)) with (0, 0, 8, 8)%Z in Hx
    by (vm_compute; reflexivity).
  destruct Hx as (_ & _ & Hx & _).
  apply Hx; vm_compute; reflexivity.
Defined.

(** ** The CHROM pipeline *)

Lemma map_series_from {A} (k : A -> R) (d : A) (c : list A) (lo : nat) :
  map k c = map (fun t => k (nth (t - lo) c d)) (seq lo (length c)).
Proof.
  revert lo. induction c as [|x c IH]; intros lo; [done |].
  cbn [length seq map]. rewrite Nat.sub_diag. cbn [nth]. f_equal.
  rewrite (IH (S lo)). apply map_ext_in. intros t Ht.
  apply in_seq in Ht.
  replace (t - lo)%nat with (S (t - S lo)) by lia. done.
Qed.

Lemma map_series (k : R -> R) (c : list R) :
  map k c = map (fun t => k (nth t c 0)) (seq 0 (length c)).
Proof.
  rewrite (map_series_from k 0 c 0). apply map_ext. intros t.
  by rewrite Nat.sub_0_r.
Qed.

Lemma zip_with_map_same {A} (f : R -> R -> R) (F F' : A -> R) (l : list A) :
  zip_with f (map F l) (map F' l) = map (fun t => f (F t) (F' t)) l.
Proof. induction l as [|x l IH]; simpl; [done | by rewrite IH]. Qed.

Lemma clip_clamp (x : R) : Numpy.clip x 0.0 1.0 = ChromSpec.clamp x 0 1.
Proof.
  unfold Numpy.clip, ChromSpec.clamp, Rmin, Rmax.
  repeat case_decide; repeat destruct (Rle_dec _ _); lra.
Qed.

Lemma sum_select {A} (h : A -> R) (F : nat -> A) (m : nat -> bool)
    (l : list nat) :
  Numpy.sum (map h (Numpy.select (map F l) (map m l)))
  = Numpy.sum (map (fun i => if m i then h (F i) else 0) l).
Proof.
  unfold Numpy.select. induction l as [|i l IH]; [done |].
  cbn [map zip zip_with]. rewrite filter_cons. cbn [snd].
  destruct (m i); case_decide; try done.
  - cbn [map fst]. change (Numpy.sum (?x :: ?l)) with (x + Numpy.sum l).
    by rewrite IH.
  - change (Numpy.sum (?x :: ?l)) with (x + Numpy.sum l).
    rewrite IH. lra.
Qed.

Section Refinement.
Variable s : PPGSession.
Hypothesis Hok : session_ok s.
Hypothesis Hlen : (0 < len s)%nat.

Local Abbreviation Rs := (r s).
Local Abbreviation Gs := (g s).
Local Abbreviation Bs := (b s).

Lemma code_X : ComputeScore.X s = ChromSpec.series Rs (ChromSpec.X Rs Gs).
Proof.
  destruct Hok as [Hrg Hgb _ _ _ _].
  unfold ComputeScore.X, ComputeScore.r_n, ComputeScore.g_n.
  rewrite (map_series _ Rs), (map_series _ Gs), <- Hrg.
  by rewrite zip_with_map_same.
Qed.

Lemma code_Y : ComputeScore.Y s = ChromSpec.series Rs (ChromSpec.Y Rs Gs Bs).
Proof.
  destruct Hok as [Hrg Hgb _ _ _ _].
  unfold ComputeScore.Y, ComputeScore.r_n, ComputeScore.g_n, ComputeScore.b_n.
  rewrite (map_series _ Rs), (map_series _ Gs), (map_series _ Bs).
  rewrite <- Hgb, <- Hrg.
  by rewrite !zip_with_map_same.
Qed.

Lemma code_alpha : ComputeScore.alpha s = ChromSpec.alpha Rs Gs Bs.
Proof. unfold ComputeScore.alpha. by rewrite code_X, code_Y. Qed.

Lemma code_ppg : ComputeScore.ppg s = ChromSpec.series Rs (ChromSpec.P Rs Gs Bs).
Proof.
  unfold ComputeScore.ppg. rewrite code_X, code_Y, code_alpha.
  unfold ChromSpec.series. by rewrite zip_with_map_same.
Qed.

Lemma code_ppg_length : length (ComputeScore.ppg s) = ChromSpec.n Rs.
Proof.
  rewrite code_ppg. unfold ChromSpec.series.
  by rewrite length_map, length_seq.
Qed.

Lemma code_frequency (i : nat) :
  INR i / (INR (ChromSpec.n Rs) * (1.0 / FPS)) = ChromSpec.frequency Rs i.
Proof.
  unfold ChromSpec.frequency, FPS.
  assert (0 < INR (ChromSpec.n Rs)) by (apply lt_0_INR; exact Hlen).
  replace 1.0 with 1 by lra. field. lra.
Qed.

Lemma code_power_in :
  ComputeScore.power_in s
  = sum_range (fun i => if ChromSpec.in_band Rs i
                        then ChromSpec.magnitude Rs Gs Bs i else 0)
      0 (ChromSpec.bins Rs).
Proof.
  unfold ComputeScore.power_in, ComputeScore.mask, ComputeScore.freqs,
    ComputeScore.fft, Numpy.rfft, Numpy.rfftfreq.
  rewrite code_ppg_length, map_map.
  rewrite (sum_select Numpy.cabs (Numpy.dft_bin (ComputeScore.ppg s))
             (fun k => bool_decide
                         (ComputeScore.lo
                          <= INR k / (INR (ChromSpec.n Rs) * (1.0 / FPS)))
                       && bool_decide
                            (INR k / (INR (ChromSpec.n Rs) * (1.0 / FPS))
                             <= ComputeScore.hi))).
  rewrite sum_map_seq. apply sum_range_ext. intros i.
  rewrite code_frequency, code_ppg. done.
Qed.

Lemma code_power_all :
  ComputeScore.power_all s
  = sum_range (ChromSpec.magnitude Rs Gs Bs) 0 (ChromSpec.bins Rs)
    + ChromSpec.eps.
Proof.
  unfold ComputeScore.power_all, ComputeScore.fft, Numpy.rfft.
  rewrite code_ppg_length, map_map, sum_map_seq, code_ppg. done.
Qed.

(** On a session with aligned channels and at least one sample, the code
    computes the score of the design document. *)
Lemma compute_score_refines :
  _compute_score s = ChromSpec.score Rs Gs Bs.
Proof.
  unfold _compute_score, ComputeScore.anomaly, ComputeScore.snr.
  rewrite clip_clamp, code_power_in, code_power_all.
  unfold ChromSpec.score, ChromSpec.SNR. f_equal. lra.
Qed.

End Refinement.

(** C3.  When the extraction succeeds and the session holds at least
    [MIN_FRAMES] = 60 samples after the append, the score [analyze] returns
    is the score of the pipeline of the design document run on the three
    buffered series: normalisation of each series by its mean plus 1e-6,
    [X = 3R - 2G] and [Y = 1.5R + G - 1.5B], [alpha = std X / (std Y + 1e-9)]
    and [P = X - alpha Y], the transform of [P] with bin [i] at
    [i * 30 / n] Hz for [i = 0 .. n/2], the sum of the magnitudes of the
    bins in [0.67, 3.33] Hz over the sum of all magnitudes plus 1e-9, and
    [1 - 3 SNR] clamped to [0, 1]. *)
Theorem ppg_pipeline (ss : Sessions) (img_bgr : Frame)
    (face_bbox : option BBox) (sid : string) :
  reachable ss ->
  _extract_forehead_rgb img_bgr face_bbox <> None ->
  let s' := session_of (analyze ss img_bgr face_bbox sid).2 sid in
  (MIN_FRAMES <= len s')%nat ->
  (analyze ss img_bgr face_bbox sid).1 = ChromSpec.score (r s') (g s') (b s').
Proof.
  intros Hreach E s' Hlen.
  assert (Hok : session_ok s').
  { apply session_of_ok, reachable_ok. by constructor. }
  rewrite <- (compute_score_refines s' Hok)
    by (unfold MIN_FRAMES in Hlen; lia).
  subst s'.
  destruct (_extract_forehead_rgb img_bgr face_bbox) as [[[rv gv] bv]|] eqn:E';
    [| done].
  rewrite (analyze_ok _ _ _ _ _ _ _ E') in *. cbn [fst snd] in *.
  rewrite session_of_insert in *.
  case_decide; [lia | done].
Qed.

Lemma run_reachable (calls : list Call) :
  forall ss, reachable ss -> reachable (run ss calls).2.
Proof.
  induction calls as [|c calls IH]; intros ss Hss; [done |].
  cbn [run].
  pose proof (reachable_analyze ss (call_img c) (call_bbox c) (call_sid c) Hss)
    as Hstep.
  destruct (analyze ss _ _ _) as [score ss1]. cbn [snd] in Hstep.
  specialize (IH ss1 Hstep). by destruct (run ss1 calls).
Qed.

Lemma run_call0_len (k : nat) :
  forall ss, (len (session_of ss "cam") + k <= MAX_LEN)%nat ->
  len (session_of (run ss (repeat call0 k)).2 "cam")
  = (len (session_of ss "cam") + k)%nat.
Proof.
  induction k as [|k IH]; intros ss Hk; [cbn; lia |].
  cbn [repeat run call_img call_bbox call_sid call0].
  destruct extract_frame0 as (rv & gv & bv & E).
  rewrite (analyze_ok _ _ _ _ _ _ _ E). cbv zeta.
  set (ss1 := <["cam" := _]> ss).
  assert (H1 : len (session_of ss1 "cam") = S (len (session_of ss "cam"))).
  { unfold ss1. rewrite session_of_insert. unfold len in *. cbn [append r].
    rewrite deque_append_length by lia. lia. }
  specialize (IH ss1). rewrite H1 in IH.
  destruct (decide _); destruct (run ss1 (repeat call0 k)) as [log ssf];
    cbn [snd] in *; rewrite IH; lia.
Qed.

Lemma ppg_pipeline_witness :
  let a := analyze sessions59 frame0 (Some bbox0) "cam" in
  reachable sessions59
  /\ (MIN_FRAMES <= len (session_of a.2 "cam"))%nat
  /\ a.1 = ChromSpec.score (r (session_of a.2 "cam")) (g (session_of a.2 "cam"))
             (b (session_of a.2 "cam")).
Proof.
  intros a.
  assert (Hreach : reachable sessions59)
    by (apply run_reachable, reachable_init).
  assert (Hex : _extract_forehead_rgb frame0 (Some bbox0) <> None)
    by (destruct extract_frame0 as (rv & gv & bv & ->); done).
  assert (Hlen : (MIN_FRAMES <= len (session_of a.2 "cam"))%nat).
  { pose proof (run_call0_len 59 PPGAnalyzer_init) as H59.
    rewrite session_of_init in H59. fold sessions59 in H59.
    subst a. destruct extract_frame0 as (rv & gv & bv & E).
    rewrite (analyze_ok _ _ _ _ _ _ _ E). cbn [snd].
    rewrite session_of_insert. unfold len in *. cbn [append r].
    rewrite deque_append_length; rewrite H59; unfold MAX_LEN, MIN_FRAMES;
      cbn; lia. }
  split; [exact Hreach |]. split; [exact Hlen |].
  exact (ppg_pipeline sessions59 frame0 (Some bbox0) "cam" Hreach Hex Hlen).
Defined.

(** * Further properties of the code *)

(** ** The signal-to-noise ratio *)

Lemma sum_select_le (a : list Numpy.complex) :
  forall mask : list bool,
    0 <= Numpy.sum (map Numpy.cabs (Numpy.select a mask))
      <= Numpy.sum (map Numpy.cabs a).
Proof.
  unfold Numpy.select.
  induction a as [|z a IH]; intros [|m mask]; cbn [zip_with map];
    try (pose proof (sum_cabs_nonneg (z :: a)); cbn in *; lra);
    try (cbn; lra).
  specialize (IH mask). pose proof (cabs_nonneg z).
  rewrite filter_cons. cbn [snd].
  change (Numpy.sum (Numpy.cabs z :: map Numpy.cabs a))
    with (Numpy.cabs z + Numpy.sum (map Numpy.cabs a)).
  destruct m; case_decide; try done.
  - cbn [map fst].
    change (Numpy.sum (?x :: ?l)) with (x + Numpy.sum l). lra.
  - lra.
Qed.

(** X1.  In [_compute_score] the ratio [snr] always lies in [0, 1), so the
    upper bound of the final [np.clip] is never the active one: the score
    is [1 - 3 * snr] while [snr <= 1/3] and 0 beyond; it is 1 exactly when
    no spectral magnitude falls in the cardiac band. *)
Theorem snr_range (session : PPGSession) :
  0 <= ComputeScore.snr session < 1
  /\ _compute_score session = Rmax 0 (1 - 3 * ComputeScore.snr session)
  /\ (_compute_score session = 1 <-> ComputeScore.power_in session = 0)
  /\ (_compute_score session = 0 <-> 1 / 3 <= ComputeScore.snr session).
Proof.
  pose proof (sum_select_le (ComputeScore.fft session) (ComputeScore.mask session))
    as [Hin Hle].
  fold (ComputeScore.power_in session) in Hin, Hle.
  assert (Hall : ComputeScore.power_all session
                 = Numpy.sum (map Numpy.cabs (ComputeScore.fft session)) + 1e-9)
    by done.
  assert (Hpos : 0 < ComputeScore.power_all session) by lra.
  assert (Hsnr : 0 <= ComputeScore.snr session < 1).
  { unfold ComputeScore.snr. split.
    - apply Rmult_le_pos; [done | apply Rlt_le, Rinv_0_lt_compat, Hpos].
    - apply (Rmult_lt_reg_r (ComputeScore.power_all session)); [done |].
      unfold Rdiv. rewrite Rmult_assoc, Rinv_l by lra. lra. }
  assert (Hscore : _compute_score session
                   = Rmax 0 (1 - 3 * ComputeScore.snr session)).
  { unfold _compute_score, ComputeScore.anomaly, Numpy.clip, Rmin, Rmax.
    repeat destruct (Rle_dec _ _); lra. }
  split; [done |]. split; [done |]. rewrite Hscore. split.
  - unfold Rmax. destruct (Rle_dec _ _); split; intros H.
    + assert (Hz : ComputeScore.snr session = 0) by lra.
      unfold ComputeScore.snr in Hz.
      apply (f_equal (fun x => x * ComputeScore.power_all session)) in Hz.
      unfold Rdiv in Hz. rewrite Rmult_assoc, Rinv_l in Hz by lra. lra.
    + unfold ComputeScore.snr. rewrite H. unfold Rdiv. lra.
    + lra.
    + unfold ComputeScore.snr in *. rewrite H in *. unfold Rdiv in *. lra.
  - unfold Rmax. destruct (Rle_dec _ _); split; intros H; lra.
Qed.

(** ** Sessions over a sequence of calls *)

Lemma analyze_len ss img_bgr face_bbox sid sid' :
  (len (session_of ss sid') <= MAX_LEN)%nat ->
  len (session_of (analyze ss img_bgr face_bbox sid).2 sid')
  = if decide (sid = sid' /\ _extract_forehead_rgb img_bgr face_bbox <> None)
    then Nat.min MAX_LEN (S (len (session_of ss sid')))
    else len (session_of ss sid').
Proof.
  intros Hlen.
  destruct (_extract_forehead_rgb img_bgr face_bbox) as [[[rv gv] bv]|] eqn:E.
  - rewrite (analyze_ok _ _ _ _ _ _ _ E). cbn [snd].
    case_decide as Hd.
    + destruct Hd as [<- _]. rewrite session_of_insert.
      unfold len in *. cbn [append r]. by rewrite deque_append_length.
    + rewrite session_of_insert_ne; [done |]. intros ->. by apply Hd.
  - rewrite (analyze_fail_session_of _ _ _ _ _ E).
    case_decide as Hd; [by destruct Hd | done].
Qed.

(** X2.  Over any sequence of calls, for any mix of sessions, the number of
    samples a session holds grows by one for each call that addresses it
    and whose extraction succeeds, up to the capacity of 300, and by
    nothing else. *)
Theorem session_length_after (calls : list Call) (sid : string) :
  forall ss : Sessions,
    (len (session_of ss sid) <= MAX_LEN)%nat ->
    len (session_of (run ss calls).2 sid)
    = Nat.min MAX_LEN
        (len (session_of ss sid) + length (appended_for sid calls)).
Proof.
  induction calls as [|c calls IH]; intros ss Hlen.
  - cbn [run snd]. unfold appended_for. rewrite filter_nil. cbn [length]. lia.
  - cbn [run].
    pose proof (analyze_len ss (call_img c) (call_bbox c) (call_sid c) sid Hlen)
      as Hstep.
    destruct (analyze ss _ _ _) as [score ss1]. cbn [snd] in Hstep.
    assert (Hlen1 : (len (session_of ss1 sid) <= MAX_LEN)%nat)
      by (rewrite Hstep; case_decide; lia).
    specialize (IH ss1 Hlen1).
    destruct (run ss1 calls) as [log ssf]. cbn [snd] in *.
    rewrite IH, Hstep. unfold appended_for. rewrite filter_cons.
    repeat case_decide; try done; cbn [length]; lia.
Qed.

Lemma session_length_after_witness :
  len (session_of (run PPGAnalyzer_init [call_a; call_b; call_b; call_a]).2 "b")
  = Nat.min MAX_LEN (0 + length (appended_for "b" [call_a; call_b; call_b; call_a])).
Proof.
  apply (session_length_after [call_a; call_b; call_b; call_a] "b"
           PPGAnalyzer_init).
  rewrite session_of_init. cbn. lia.
Defined.

Lemma analyze_score_short ss img_bgr face_bbox sid :
  (_extract_forehead_rgb img_bgr face_bbox <> None ->
   (len (session_of ss sid) + 1 < MIN_FRAMES)%nat) ->
  (analyze ss img_bgr face_bbox sid).1
  = if decide (_extract_forehead_rgb img_bgr face_bbox = None) then 0.5 else 0.0.
Proof.
  intros Hlen.
  destruct (_extract_forehead_rgb img_bgr face_bbox) as [[[rv gv] bv]|] eqn:E.
  - rewrite (analyze_ok _ _ _ _ _ _ _ E). cbn [fst].
    specialize (Hlen ltac:(done)).
    assert (Hl : len (append (session_of ss sid) rv gv bv)
                 = S (len (session_of ss sid))).
    { unfold len, MIN_FRAMES in *. cbn [append r].
      rewrite deque_append_length by (unfold MAX_LEN; lia).
      unfold MAX_LEN. lia. }
    rewrite Hl. repeat case_decide; try done. lia.
  - rewrite (analyze_fail _ _ _ _ E). by case_decide.
Qed.

(** X3.  Warm-up.  As long as a session holds fewer than 60 samples after
    the calls considered, every call for it returns one of the two fixed
    values: 0.5 when its extraction fails and 0.0 when it succeeds, in any
    interleaving with calls for other sessions. *)
Theorem warm_up_scores (calls : list Call) (sid : string) :
  forall ss : Sessions,
    (len (session_of ss sid) + length (appended_for sid calls) < MIN_FRAMES)%nat ->
    filter (fun e => e.1 = sid) (run ss calls).1
    = map (fun c =>
             (sid,
              if decide (_extract_forehead_rgb (call_img c) (call_bbox c) = None)
              then 0.5 else 0.0))
        (filter (fun c => call_sid c = sid) calls).
Proof.
  induction calls as [|c calls IH]; intros ss Hlen; [done |].
  cbn [run].
  assert (Hmax : (len (session_of ss sid) <= MAX_LEN)%nat)
    by (unfold MIN_FRAMES, MAX_LEN in *; lia).
  pose proof (analyze_len ss (call_img c) (call_bbox c) (call_sid c) sid Hmax)
    as Hstep.
  unfold appended_for in Hlen. rewrite filter_cons in Hlen.
  fold (appended_for sid calls) in Hlen.
  destruct (decide (call_sid c = sid)) as [<-|Hc].
  - pose proof (analyze_score_short ss (call_img c) (call_bbox c) (call_sid c))
      as Hscore.
    destruct (analyze ss _ _ _) as [score ss1]. cbn [fst snd] in *.
    specialize (IH ss1).
    destruct (run ss1 calls) as [log ssf]. cbn [fst snd] in *.
    rewrite (filter_cons_True (fun e : string * R => e.1 = call_sid c)) by done.
    rewrite (filter_cons_True (fun c' => call_sid c' = call_sid c)) by done.
    cbn [map].
    rewrite Hscore, IH; [done | |];
      repeat case_decide; cbn [length] in *;
      unfold MIN_FRAMES, MAX_LEN in *; try lia; try tauto.
  - destruct (analyze ss _ _ _) as [score ss1]. cbn [fst snd] in *.
    specialize (IH ss1).
    destruct (run ss1 calls) as [log ssf]. cbn [fst snd] in *.
    rewrite (filter_cons_False (fun e : string * R => e.1 = sid)) by done.
    rewrite (filter_cons_False (fun c => call_sid c = sid)) by done.
    apply IH. repeat case_decide; cbn [length] in *; try lia; tauto.
Qed.

Lemma appended_for_repeat_call0 (k : nat) :
  length (appended_for "cam" (repeat call0 k)) = k.
Proof.
  induction k as [|k IH]; [done |].
  cbn [repeat]. unfold appended_for. rewrite filter_cons_True.
  - cbn [length]. f_equal. exact IH.
  - split; [done |]. destruct extract_frame0 as (rv & gv & bv & E).
    cbn [call_img call_bbox call0]. by rewrite E.
Qed.

Lemma warm_up_scores_witness :
  filter (fun e => e.1 = "cam") (run PPGAnalyzer_init (repeat call0 59)).1
  = map (fun c =>
           ("cam",
            if decide (_extract_forehead_rgb (call_img c) (call_bbox c) = None)
            then 0.5 else 0.0))
      (filter (fun c => call_sid c = "cam") (repeat call0 59)).
Proof.
  apply (warm_up_scores (repeat call0 59) "cam" PPGAnalyzer_init).
  rewrite session_of_init, appended_for_repeat_call0.
  unfold MIN_FRAMES. cbn. lia.
Defined.

(** X4.  The analyzer never forgets a session: after any sequence of
    calls the stored session ids are those stored before together with the
    id of every call made, whether or not its extraction succeeded. *)
Theorem sessions_only_grow (calls : list Call) :
  forall ss : Sessions,
    dom (run ss calls).2 = dom ss ∪ list_to_set (map call_sid calls).
Proof.
  induction calls as [|c calls IH]; intros ss.
  - cbn. by rewrite (right_id_L ∅ (∪)).
  - cbn [run].
    assert (Hstep : dom (analyze ss (call_img c) (call_bbox c) (call_sid c)).2
                    = {[call_sid c]} ∪ dom ss).
    { destruct (_extract_forehead_rgb (call_img c) (call_bbox c))
        as [[[rv gv] bv]|] eqn:E.
      - rewrite (analyze_ok _ _ _ _ _ _ _ E). cbn [snd].
        by rewrite dom_insert_L.
      - rewrite (analyze_fail _ _ _ _ E). cbn [snd].
        destruct (ss !! call_sid c) as [s0|] eqn:Es.
        + apply (elem_of_dom_2 (D := gset string)) in Es.
          symmetry. apply subseteq_union_1_L. by apply singleton_subseteq_l.
        + by rewrite dom_insert_L. }
    destruct (analyze ss _ _ _) as [score ss1]. cbn [snd] in Hstep.
    specialize (IH ss1).
    destruct (run ss1 calls) as [log ssf]. cbn [snd] in *.
    rewrite IH, Hstep. cbn [map list_to_set].
    by rewrite (comm_L (∪) {[call_sid c]} (dom ss)), (assoc_L (∪)).
Qed.

(** ** The colour sample *)

Lemma to_float_range (c : byte) : 0 <= to_float c <= 255.
Proof.
  unfold to_float. pose proof (Byte.to_N_bounded c) as Hb.
  split; [apply IZR_le; lia | apply IZR_le; lia].
Qed.

Lemma sum_bounds (M : R) (a : list R) :
  Forall (fun x => 0 <= x <= M) a ->
  0 <= Numpy.sum a <= INR (length a) * M.
Proof.
  induction 1 as [|x a Hx _ IH].
  - simpl. lra.
  - change (Numpy.sum (x :: a)) with (x + Numpy.sum a).
    change (length (x :: a)) with (S (length a)). rewrite S_INR. lra.
Qed.

Lemma mean_bounds (M : R) (a : list R) :
  0 <= M -> Forall (fun x => 0 <= x <= M) a -> 0 <= Numpy.mean a <= M.
Proof.
  intros HM Ha. pose proof (sum_bounds M a Ha) as [Hlo Hhi].
  unfold Numpy.mean. destruct a as [|x a].
  - simpl. unfold Rdiv. rewrite Rmult_0_l. lra.
  - assert (Hn : 0 < INR (length (x :: a))) by (apply lt_0_INR; simpl; lia).
    split.
    + apply Rmult_le_pos; [done | apply Rlt_le, Rinv_0_lt_compat, Hn].
    + apply (Rmult_le_reg_r (INR (length (x :: a)))); [done |].
      unfold Rdiv. rewrite Rmult_assoc, Rinv_l by lra. lra.
Qed.

Lemma map_range {A} (f : A -> R) (M : R) (l : list A) :
  (forall x, 0 <= f x <= M) -> Forall (fun x => 0 <= x <= M) (map f l).
Proof. intros Hf. induction l; simpl; constructor; auto. Qed.

(** X5.  Every colour sample the extraction returns has its three
    components between 0 and 255. *)
Theorem sample_range img_bgr face_bbox rv gv bv :
  _extract_forehead_rgb img_bgr face_bbox = Some (rv, gv, bv) ->
  0 <= rv <= 255 /\ 0 <= gv <= 255 /\ 0 <= bv <= 255.
Proof.
  unfold _extract_forehead_rgb.
  destruct (forehead_roi img_bgr face_bbox) as [[[y1 y2] x1] x2].
  case_decide; [done |]. intros [= <- <- <-].
  split; [| split]; (apply mean_bounds; [lra |]);
    apply map_range; intros p; apply to_float_range.
Qed.

Lemma sample_range_witness :
  exists rv gv bv,
    _extract_forehead_rgb frame0 (Some bbox0) = Some (rv, gv, bv)
    /\ 0 <= rv <= 255 /\ 0 <= gv <= 255 /\ 0 <= bv <= 255.
Proof.
  destruct extract_frame0 as (rv & gv & bv & E).
  exists rv, gv, bv. split; [exact E |].
  exact (sample_range frame0 (Some bbox0) rv gv bv E).
Defined.

Lemma slice_elements img y1 y2 x1 x2 (q : Pixel) :
  (0 <= y1)%Z -> (0 <= x1)%Z ->
  In q (slice img y1 y2 x1 x2) ->
  exists y x : nat,
    (y1 <= Z.of_nat y < y2)%Z /\ (x1 <= Z.of_nat x < x2)%Z
    /\ q = pixel img y x.
Proof.
  intros Hy Hx Hin. unfold slice in Hin.
  apply in_flat_map in Hin as (y & Hyin & Hin).
  apply in_map_iff in Hin as (x & <- & Hxin).
  apply in_seq in Hyin. apply in_seq in Hxin.
  exists y, x. repeat split; lia.
Qed.

Lemma mean_const {A} (f : A -> R) (p : A) (l : list A) :
  (forall q, In q l -> q = p) -> l <> [] -> Numpy.mean (map f l) = f p.
Proof.
  intros Hall Hne. unfold Numpy.mean. rewrite length_map.
  assert (Hsum : Numpy.sum (map f l) = INR (length l) * f p).
  { clear Hne. induction l as [|q l IH]; [simpl; lra |].
    change (Numpy.sum (map f (q :: l))) with (f q + Numpy.sum (map f l)).
    change (length (q :: l)) with (S (length l)).
    rewrite S_INR, IH by (intros q' Hq'; apply Hall; by right).
    rewrite (Hall q) by (by left). lra. }
  rewrite Hsum.
  assert (0 < INR (length l)) by (apply lt_0_INR; destruct l; simpl; [done | lia]).
  field. lra.
Qed.

(** X6.  When every pixel of the frame has the same colour, a successful
    extraction returns exactly that colour, whatever the face box. *)
Theorem sample_of_uniform_frame img_bgr face_bbox (p : Pixel) :
  (forall y x : nat,
      (y < shape_h img_bgr)%nat -> (x < shape_w img_bgr)%nat ->
      pixel img_bgr y x = p) ->
  _extract_forehead_rgb img_bgr face_bbox <> None ->
  _extract_forehead_rgb img_bgr face_bbox
  = Some (to_float (red p), to_float (green p), to_float (blue p)).
Proof.
  intros Hp. unfold _extract_forehead_rgb. rewrite forehead_roi_eq.
  destruct (resolve_bbox img_bgr face_bbox) as [[[fx fy] fw] fh].
  set (y1 := Z.max 0 fy). set (y2 := Z.min _ (fy + Z.max 1 _)).
  set (x1 := Z.max 0 (fx + _)). set (x2 := Z.min _ (fx + Z.quot (fw * 75) 100)).
  case_decide as Hroi; [done |]. intros _.
  assert (Hall : forall q, In q (slice img_bgr y1 y2 x1 x2) -> q = p).
  { intros q Hq.
    apply slice_elements in Hq as (y & x & Hy & Hx & ->);
      [| unfold y1; lia | unfold x1; lia].
    apply Hp; unfold y2, x2 in *; lia. }
  assert (Hne : slice img_bgr y1 y2 x1 x2 <> []).
  { intros Hnil. apply (f_equal length) in Hnil.
    rewrite length_slice in Hnil. cbn [length] in Hnil. nia. }
  by rewrite !(mean_const _ p).
Qed.

Lemma sample_of_uniform_frame_witness :
  _extract_forehead_rgb frame0 (Some bbox0)
  = Some (to_float x30, to_float x20, to_float x10).
Proof.
  apply (sample_of_uniform_frame frame0 (Some bbox0)
           {| blue := x10; green := x20; red := x30 |}).
  - intros y x _ _. reflexivity.
  - destruct extract_frame0 as (rv & gv & bv & ->). done.
Defined.

(** X7.  Without a face box ([None], or an empty dictionary) the whole
    frame stands in for the box, and the extraction fails exactly when the
    frame has no rows or fewer than two columns. *)
Theorem extraction_without_box img_bgr face_bbox :
  face_bbox = None \/ face_bbox = Some ∅ ->
  _extract_forehead_rgb img_bgr face_bbox = None
  <-> shape_h img_bgr = 0%nat \/ (shape_w img_bgr <= 1)%nat.
Proof.
  intros Hbox. unfold _extract_forehead_rgb. rewrite forehead_roi_eq.
  assert (Hres : resolve_bbox img_bgr face_bbox
                 = (0, 0, Z.of_nat (shape_w img_bgr),
                    Z.of_nat (shape_h img_bgr))%Z).
  { destruct Hbox as [-> | ->]; [done |]. unfold resolve_bbox.
    by case_decide. }
  rewrite Hres.
  set (H := Z.of_nat (shape_h img_bgr)). set (W := Z.of_nat (shape_w img_bgr)).
  assert (0 <= H)%Z by (unfold H; lia). assert (0 <= W)%Z by (unfold W; lia).
  assert (Hh : (H = 0 <-> shape_h img_bgr = 0%nat)%Z) by (unfold H; lia).
  assert (Hw : (W <= 1 <-> (shape_w img_bgr <= 1)%nat)%Z) by (unfold W; lia).
  pose proof (Z.quot_rem' (H * 15) 100). pose proof (Z.rem_bound_pos (H * 15) 100).
  pose proof (Z.quot_rem' (W * 25) 100). pose proof (Z.rem_bound_pos (W * 25) 100).
  pose proof (Z.quot_rem' (W * 75) 100). pose proof (Z.rem_bound_pos (W * 75) 100).
  case_decide as Hroi; split; try done; intros Hx; [lia |].
  exfalso. apply Hroi. lia.
Qed.

Lemma extraction_without_box_witness :
  _extract_forehead_rgb
    {| shape_h := 8; shape_w := 1; pixel := pixel frame0 |} None = None.
Proof.
  apply (extraction_without_box {| shape_h := 8; shape_w := 1;
                                    pixel := pixel frame0 |} None).
  - by left.
  - right. cbn. lia.
Defined.

(** ** Decoding a frame *)

Lemma cut_comma_free (s : string) :
  contains "," s = false -> cut_comma s = (s, None).
Proof.
  induction s as [|c s IH]; [done |]. cbn [contains cut_comma].
  destruct (Ascii.eqb c ","); [done |]. cbn [orb]. intros Hs.
  by rewrite (IH Hs).
Qed.

Lemma cut_comma_at (p q : string) :
  contains "," p = false -> cut_comma (p +:+ String "," q) = (p, Some q).
Proof.
  induction p as [|c p IH]; [done |]. cbn [contains].
  change (String c p +:+ String "," q) with (String c (p +:+ String "," q)).
  cbn [cut_comma].
  destruct (Ascii.eqb c ","); [done |]. cbn [orb]. intros Hp.
  by rewrite (IH Hp).
Qed.

(** X8.  Stripping the data-URI prefix: a string without a comma is decoded
    as it is; of "prefix,payload" only the payload is decoded; and when the
    text has further commas, only the piece between the first and the
    second comma is decoded, the rest being dropped. *)
Theorem data_uri_stripping (p q : string) :
  contains "," p = false ->
  contains "," q = false ->
  strip_data_uri p = p
  /\ strip_data_uri (p +:+ String "," q) = q
  /\ forall rest, strip_data_uri (p +:+ String "," (q +:+ String "," rest)) = q.
Proof.
  intros Hp Hq. unfold strip_data_uri. split; [| split].
  - by rewrite (cut_comma_free p Hp).
  - rewrite (cut_comma_at p q Hp). cbn [snd].
    by rewrite (cut_comma_free q Hq).
  - intros rest. rewrite (cut_comma_at p _ Hp). cbn [snd].
    by rewrite (cut_comma_at q rest Hq).
Qed.

Lemma data_uri_stripping_witness :
  strip_data_uri "data:image/jpeg;base64,AAAA" = "AAAA".
Proof.
  exact (proj1 (proj2 (data_uri_stripping "data:image/jpeg;base64" "AAAA"
                         eq_refl eq_refl))).
Defined.

(** ** Outcomes of the single-frame endpoint *)

(** X9.  [analyze_frame] raises in exactly two situations and changes
    nothing when it does: error 400, whose detail is "Invalid image data: "
    followed by the text of the decoding error, when the image does not
    decode; error 422 "No face detected in frame" when it decodes but
    shows no face.  Otherwise it returns a result that carries the frame
    number of the request. *)
Theorem analyze_frame_outcome
    (imdecode : string -> option Frame)
    (decode_error : string -> string) (Face : Type)
    (preprocess_frame : Frame -> option Face * option BBox)
    (predict : Face -> R) (Checker : Type)
    (temporal_update : Checker -> string -> R -> Z -> R * Checker)
    (req : FrameRequest) (w : Singletons Checker) :
  let out :=
    analyze_frame imdecode decode_error Face preprocess_frame predict Checker
      temporal_update req w in
  match out.1 with
  | Raise e =>
      out.2 = w
      /\ ((status_code e = 400%Z
           /\ detail e
              = "Invalid image data: "
                +:+ decode_error (strip_data_uri (frame_b64 req))
           /\ imdecode (strip_data_uri (frame_b64 req)) = None)
          \/ (e = mkHTTPException 422 "No face detected in frame"
              /\ exists img face_bbox,
                   imdecode (strip_data_uri (frame_b64 req)) = Some img
                   /\ preprocess_frame img = (None, face_bbox)))
  | Return res =>
      res_frame_number res = frame_number req
      /\ exists img face face_bbox,
           imdecode (strip_data_uri (frame_b64 req)) = Some img
           /\ preprocess_frame img = (Some face, face_bbox)
  end.
Proof.
  intros out. subst out.
  destruct (imdecode (strip_data_uri (frame_b64 req))) as [img|] eqn:E.
  - destruct (preprocess_frame img) as [[face|] face_bbox] eqn:P.
    + rewrite (analyze_frame_face _ _ _ _ _ _ _ _ _ _ _ _ E P). cbn [fst].
      split; [done | eauto].
    + rewrite (analyze_frame_no_face _ _ _ _ _ _ _ _ _ _ _ E P). cbn [fst snd].
      split; [done |]. right. eauto.
  - rewrite (analyze_frame_invalid _ _ _ _ _ _ _ _ _ E). cbn [fst snd].
    split; [done |]. by left.
Qed.

(** ** Classification *)

(** X10.  [_classify] always yields one of the three (label, threat) pairs,
    and it is monotone: a score at least as high as one classified fake is
    classified fake, and a score at most as high as one classified real is
    classified real. *)
Theorem classify_monotone (s1 s2 : R) :
  s1 <= s2 ->
  (_classify s1 = ("real", "safe")
   \/ _classify s1 = ("suspicious", "warning")
   \/ _classify s1 = ("fake", "danger"))
  /\ (_classify s2 = ("real", "safe") -> _classify s1 = ("real", "safe"))
  /\ (_classify s1 = ("fake", "danger") -> _classify s2 = ("fake", "danger")).
Proof.
  intros Hle. split; [| split].
  - unfold _classify. repeat case_decide; auto.
  - rewrite !classify_real. lra.
  - rewrite !classify_fake. lra.
Qed.

Lemma classify_monotone_witness :
  0.70 <= 0.95 /\ _classify 0.95 = ("fake", "danger").
Proof.
  assert (H : 0.70 <= 0.95) by lra.
  split; [exact H |].
  apply (classify_monotone 0.70 0.95 H).
  apply classify_fake. lra.
Defined.

(** ** Ranges of the reported scores *)

Lemma analyze_unit ss img_bgr face_bbox sid :
  0 <= (analyze ss img_bgr face_bbox sid).1 <= 1.
Proof.
  destruct (_extract_forehead_rgb img_bgr face_bbox) as [[[rv gv] bv]|] eqn:E.
  - rewrite (analyze_ok _ _ _ _ _ _ _ E). cbn [fst].
    case_decide; [lra | apply compute_score_unit].
  - rewrite (analyze_fail _ _ _ _ E). cbn [fst]. lra.
Qed.

Lemma round_unit (x : R) : 0 <= x <= 1 -> 0 <= round x 4 <= 1.
Proof.
  intros Hx. unfold round.
  pose proof (round_half_even_near (x * 10 ^ 4)) as Hn.
  set (k := round_half_even (x * 10 ^ 4)) in *.
  assert (H4 : 10 ^ 4 = 10000) by (simpl; lra). rewrite H4 in *.
  assert (Hlo : (-1 < k)%Z) by (apply lt_IZR; lra).
  assert (Hhi : (k < 10001)%Z) by (apply lt_IZR; lra).
  assert (Hlo' : (0 <= k)%Z) by lia.
  assert (Hhi' : (k <= 10000)%Z) by lia.
  apply IZR_le in Hlo', Hhi'. lra.
Qed.

(** The scores of a result are in range when the collaborators are. *)
Lemma analyze_frame_unit
    (imdecode : string -> option Frame)
    (decode_error : string -> string) (Face : Type)
    (preprocess_frame : Frame -> option Face * option BBox)
    (predict : Face -> R) (Checker : Type)
    (temporal_update : Checker -> string -> R -> Z -> R * Checker)
    (req : FrameRequest) (w w' : Singletons Checker) (res : AnalysisResult) :
  (forall face, 0 <= predict face <= 1) ->
  (forall st sid conf n, 0 <= (temporal_update st sid conf n).1 <= 1) ->
  analyze_frame imdecode decode_error Face
    preprocess_frame predict Checker temporal_update
    req w = (Return res, w') ->
  0 <= deepfake_confidence res <= 1
  /\ 0 <= ppg_score res <= 1
  /\ 0 <= temporal_score res <= 1
  /\ 0 <= combined_score res <= 1.
Proof.
  intros Hpred Htemp.
  destruct (imdecode (strip_data_uri (frame_b64 req))) as [img|] eqn:E.
  - destruct (preprocess_frame img) as [[face|] face_bbox] eqn:P.
    + rewrite (analyze_frame_face _ _ _ _ _ _ _ _ _ _ _ _ E P).
      intros [= <- _].
      cbn [deepfake_confidence ppg_score temporal_score combined_score].
      pose proof (Hpred face) as Hd.
      pose proof (analyze_unit (_ppg_analyzer w) img face_bbox (session_id req))
        as Hp.
      pose proof (Htemp (_temporal_checker w) (session_id req) (predict face)
                    (frame_number req)) as Ht.
      repeat split; apply round_unit; try done; by apply fusion_unit.
    + by rewrite (analyze_frame_no_face _ _ _ _ _ _ _ _ _ _ _ E P).
  - by rewrite (analyze_frame_invalid _ _ _ _ _ _ _ _ _ E).
Qed.

(** X11.  When the classifier and the temporal checker keep to [0, 1], so
    does every score of a result of [analyze_frame]: the three component
    scores and the combined score, all as reported after rounding. *)
Theorem analyze_frame_scores_unit
    (imdecode : string -> option Frame)
    (decode_error : string -> string) (Face : Type)
    (preprocess_frame : Frame -> option Face * option BBox)
    (predict : Face -> R) (Checker : Type)
    (temporal_update : Checker -> string -> R -> Z -> R * Checker)
    (req : FrameRequest) (w w' : Singletons Checker) (res : AnalysisResult) :
  (forall face, 0 <= predict face <= 1) ->
  (forall st sid conf n, 0 <= (temporal_update st sid conf n).1 <= 1) ->
  analyze_frame imdecode decode_error Face
    preprocess_frame predict Checker temporal_update
    req w = (Return res, w') ->
  0 <= deepfake_confidence res <= 1
  /\ 0 <= ppg_score res <= 1
  /\ 0 <= temporal_score res <= 1
  /\ 0 <= combined_score res <= 1.
Proof.
  apply analyze_frame_unit.
Qed.

Lemma predict0_unit (face : Frame) : 0 <= predict0 face <= 1.
Proof.
  unfold predict0. pose proof (to_float_range (red (pixel face 0 0))). lra.
Qed.

Lemma temporal0_unit st sid conf n : 0 <= (temporal0 st sid conf n).1 <= 1.
Proof. cbn. lra. Qed.

Lemma analyze_frame_scores_unit_witness :
  exists res w',
    analyze_frame0 (req_a 0) world0 = (Return res, w')
    /\ 0 <= combined_score res <= 1.
Proof.
  destruct (step0_face (req_a 0) world0 "2" eq_refl eq_refl)
    as (res & w' & E & _).
  { cbn [_ppg_analyzer world0]. rewrite session_of_init. cbn. lia. }
  exists res, w'. split; [exact E |].
  apply (analyze_frame_scores_unit imdecode0 decode_error0 Frame
           preprocess0 predict0 _
           temporal0 (req_a 0) world0 w' res predict0_unit temporal0_unit E).
Defined.

(** ** Further properties of the batch endpoint *)

Section BatchFacts.

Context (imdecode : string -> option Frame).
Context (decode_error : string -> string).
Context (Face : Type) (preprocess_frame : Frame -> option Face * option BBox).
Context (predict : Face -> R).
Context (Checker : Type).
Context (temporal_update : Checker -> string -> R -> Z -> R * Checker).

Local Abbreviation analyze_frame' :=
  (analyze_frame imdecode decode_error Face
    preprocess_frame predict Checker temporal_update).
Local Abbreviation analyze_batch_loop' :=
  (analyze_batch_loop imdecode decode_error Face
     preprocess_frame predict Checker temporal_update).
Local Abbreviation analyze_batch' :=
  (analyze_batch imdecode decode_error Face
    preprocess_frame predict Checker temporal_update).

Lemma analyze_frame_raise_unchanged req w e w' :
  analyze_frame' req w = (Raise e, w') -> w' = w.
Proof.
  destruct (imdecode (strip_data_uri (frame_b64 req))) as [img|] eqn:E.
  - destruct (preprocess_frame img) as [[face|] face_bbox] eqn:P.
    + by rewrite (analyze_frame_face _ _ _ _ _ _ _ _ _ _ _ _ E P).
    + rewrite (analyze_frame_no_face _ _ _ _ _ _ _ _ _ _ _ E P). by intros [= _ <-].
  - rewrite (analyze_frame_invalid _ _ _ _ _ _ _ _ _ E). by intros [= _ <-].
Qed.

Lemma analyze_frame_return_number req w res w' :
  analyze_frame' req w = (Return res, w') ->
  res_frame_number res = frame_number req.
Proof.
  destruct (imdecode (strip_data_uri (frame_b64 req))) as [img|] eqn:E.
  - destruct (preprocess_frame img) as [[face|] face_bbox] eqn:P.
    + rewrite (analyze_frame_face _ _ _ _ _ _ _ _ _ _ _ _ E P). by intros [= <- _].
    + by rewrite (analyze_frame_no_face _ _ _ _ _ _ _ _ _ _ _ E P).
  - by rewrite (analyze_frame_invalid _ _ _ _ _ _ _ _ _ E).
Qed.

(** The loop extends the list it is given: what it had collected stays
    in front, and the state does not depend on it. *)
Lemma batch_loop_acc sid frames :
  forall acc w,
    analyze_batch_loop' sid frames acc w
    = (acc ++ (analyze_batch_loop' sid frames [] w).1,
       (analyze_batch_loop' sid frames [] w).2).
Proof.
  induction frames as [|f frames IH]; intros acc w.
  - cbn. by rewrite app_nil_r.
  - cbn [analyze_batch_loop].
    destruct (analyze_frame' _ w) as [[res|e] w1].
    + rewrite (IH (acc ++ [res])), (IH ([] ++ [res])). cbn [fst snd app].
      by rewrite <- app_assoc.
    + apply IH.
Qed.

Lemma batch_loop_app sid frames1 frames2 :
  forall acc w,
    analyze_batch_loop' sid (frames1 ++ frames2) acc w
    = let '(rs1, w1) := analyze_batch_loop' sid frames1 acc w in
      analyze_batch_loop' sid frames2 rs1 w1.
Proof.
  induction frames1 as [|f frames1 IH]; intros acc w; [done |].
  cbn [app analyze_batch_loop].
  destruct (analyze_frame' _ w) as [[res|e] w1]; apply IH.
Qed.

Lemma batch_loop_numbers sid frames :
  forall w,
    sublist (map res_frame_number (analyze_batch_loop' sid frames [] w).1)
      (map frame_number frames).
Proof.
  induction frames as [|f frames IH]; intros w; [done |].
  cbn [analyze_batch_loop map].
  destruct (analyze_frame' _ w) as [[res|e] w1] eqn:Ef.
  - rewrite batch_loop_acc. cbn [fst app map].
    apply analyze_frame_return_number in Ef. rewrite Ef.
    cbn [frame_number set_session_id]. by apply sublist_skip.
  - by apply sublist_cons.
Qed.

Lemma batch_loop_none sid frames :
  forall w,
    (analyze_batch_loop' sid frames [] w).1 = [] ->
    (analyze_batch_loop' sid frames [] w).2 = w.
Proof.
  induction frames as [|f frames IH]; intros w; [done |].
  cbn [analyze_batch_loop].
  destruct (analyze_frame' _ w) as [[res|e] w1] eqn:Ef.
  - rewrite batch_loop_acc. cbn [fst app]. done.
  - apply analyze_frame_raise_unchanged in Ef as ->. apply IH.
Qed.

End BatchFacts.

Section BatchTheorems.

Context (imdecode : string -> option Frame).
Context (decode_error : string -> string).
Context (Face : Type) (preprocess_frame : Frame -> option Face * option BBox).
Context (predict : Face -> R).
Context (Checker : Type).
Context (temporal_update : Checker -> string -> R -> Z -> R * Checker).

Local Abbreviation analyze_frame' :=
  (analyze_frame imdecode decode_error Face
    preprocess_frame predict Checker temporal_update).
Local Abbreviation analyze_batch_loop' :=
  (analyze_batch_loop imdecode decode_error Face
     preprocess_frame predict Checker temporal_update).
Local Abbreviation analyze_batch' :=
  (analyze_batch imdecode decode_error Face
    preprocess_frame predict Checker temporal_update).

Lemma analyze_batch_eq (req : BatchFrameRequest) w :
  analyze_batch' req w
  = let l := analyze_batch_loop' (batch_session_id req) (frames req) [] w in
    match l.1 with
    | [] => (Raise (mkHTTPException 422 "No faces detected in any frame"), l.2)
    | _ :: _ =>
        let avg := Numpy.mean (map combined_score l.1) in
        (Return {| results := l.1;
                   res_session_id := batch_session_id req;
                   avg_combined_score := round avg 4;
                   overall_verdict := (_classify avg).2 |}, l.2)
    end.
Proof.
  unfold analyze_batch.
  destruct (analyze_batch_loop _ _ _ _ _ _ _ _ _ _ w) as [rs w']. cbn [fst snd].
  destruct rs as [|r0 rs]; [done |].
  unfold Numpy.mean. rewrite length_map. by destruct (_classify _).
Qed.

Lemma Forall_map_intro {A} (f : A -> R) (P : R -> Prop) (l : list A) :
  Forall (fun a => P (f a)) l -> Forall P (map f l).
Proof. induction 1; simpl; constructor; auto. Qed.

Lemma batch_loop_forall (P : AnalysisResult -> Prop) sid frames :
  (forall req w res w', analyze_frame' req w = (Return res, w') -> P res) ->
  forall w, Forall P (analyze_batch_loop' sid frames [] w).1.
Proof.
  intros HP. induction frames as [|f frames IH]; intros w; [by constructor |].
  cbn [analyze_batch_loop].
  destruct (analyze_frame' _ w) as [[res|e] w1] eqn:Ef.
  - rewrite batch_loop_acc. cbn [fst app]. constructor; [by eapply HP | apply IH].
  - apply IH.
Qed.

Local Abbreviation frame_outcomes' :=
  (frame_outcomes imdecode decode_error Face preprocess_frame predict Checker
     temporal_update).

Lemma frame_outcomes_numbers sid frames :
  forall w,
    Forall2 (fun f o => forall r, o = Return r ->
                                  res_frame_number r = frame_number f)
      frames (frame_outcomes' sid frames w).
Proof.
  induction frames as [|f frames IH]; intros w; [constructor |].
  cbn [frame_outcomes].
  destruct (analyze_frame' _ w) as [o w1] eqn:Ef.
  constructor; [| apply IH].
  intros r ->. by apply analyze_frame_return_number in Ef.
Qed.

Lemma returned_numbers sid frames :
  forall w,
    map res_frame_number (returned (frame_outcomes' sid frames w))
    = map (fun fo : FrameRequest * outcome AnalysisResult => frame_number fo.1)
        (filter (fun fo : FrameRequest * outcome AnalysisResult =>
                   has_result fo.2)
           (zip frames (frame_outcomes' sid frames w))).
Proof.
  induction frames as [|f frames IH]; intros w; [done |].
  cbn [frame_outcomes].
  destruct (analyze_frame' _ w) as [[r|e] w1] eqn:Ef.
  - apply analyze_frame_return_number in Ef.
    cbn [returned flat_map app map zip zip_with].
    rewrite filter_cons_True by done. cbn [map fst].
    f_equal; [done | apply IH].
  - cbn [returned flat_map app map zip zip_with].
    rewrite filter_cons_False by (cbn; tauto). apply IH.
Qed.

(** X12.  A batch response lists the results in the order of the submitted
    frames.  With the frames analysed one after the other under the
    batch's session id, the results are exactly the values of the analyses
    that returned, each carrying the frame number of its frame: the frame
    numbers of the results are those of the submitted frames whose
    analysis returned, in order, the resultless frames being left out.  So
    there are at most as many results as frames, and at least one; the
    response carries the batch's session id. *)
Theorem batch_results_in_order (req : BatchFrameRequest) w res w' :
  analyze_batch' req w = (Return res, w') ->
  let os := frame_outcomes' (batch_session_id req) (frames req) w in
  results res = returned os
  /\ Forall2 (fun f o => forall r, o = Return r ->
                                   res_frame_number r = frame_number f)
       (frames req) os
  /\ map res_frame_number (results res)
     = map (fun fo : FrameRequest * outcome AnalysisResult => frame_number fo.1)
         (filter (fun fo : FrameRequest * outcome AnalysisResult =>
                    has_result fo.2)
            (zip (frames req) os))
  /\ sublist (map res_frame_number (results res))
       (map frame_number (frames req))
  /\ (0 < length (results res) <= length (frames req))%nat
  /\ res_session_id res = batch_session_id req.
Proof.
  rewrite analyze_batch_eq. cbv zeta.
  pose proof (batch_loop_numbers imdecode decode_error Face preprocess_frame
                predict Checker temporal_update (batch_session_id req)
                (frames req) w) as Hsub.
  pose proof (batch_loop_results imdecode decode_error Face preprocess_frame
                predict Checker temporal_update (batch_session_id req)
                (frames req) [] w) as Hres.
  cbn [app] in Hres.
  destruct (analyze_batch_loop' _ _ [] w) as [rs w1]. cbn [fst snd] in *.
  destruct rs as [|r0 rs]; [done |]. intros [= <- _].
  cbn [results res_session_id].
  split; [exact Hres |]. split; [apply frame_outcomes_numbers |].
  split; [rewrite Hres; apply returned_numbers |].
  split; [done |]. split; [| done].
  apply sublist_length in Hsub. rewrite !length_map in Hsub.
  cbn [length] in *. lia.
Qed.

(** X13.  When the classifier and the temporal checker keep to [0, 1],
    every combined score of a batch response and the aggregate score lie in
    [0, 1]. *)
Theorem batch_scores_unit (req : BatchFrameRequest) w res w' :
  (forall face, 0 <= predict face <= 1) ->
  (forall st sid conf n, 0 <= (temporal_update st sid conf n).1 <= 1) ->
  analyze_batch' req w = (Return res, w') ->
  Forall (fun r => 0 <= combined_score r <= 1) (results res)
  /\ 0 <= avg_combined_score res <= 1.
Proof.
  intros Hpred Htemp. rewrite analyze_batch_eq. cbv zeta.
  pose proof (batch_loop_forall (fun r => 0 <= combined_score r <= 1)
                (batch_session_id req) (frames req)) as Hall.
  specialize (Hall ltac:(intros rq w0 r w0' Hr;
    by apply (analyze_frame_unit imdecode decode_error Face
                preprocess_frame predict
                Checker temporal_update rq w0 w0' r Hpred Htemp Hr)) w).
  destruct (analyze_batch_loop' _ _ [] w) as [rs w1]. cbn [fst snd] in *.
  destruct rs as [|r0 rs]; [done |]. intros [= <- _].
  cbn [results avg_combined_score]. split; [done |].
  apply round_unit, mean_bounds; [lra |].
  by apply (Forall_map_intro combined_score _ (r0 :: rs)).
Qed.

(** X14.  A batch that fails has changed nothing: the singletons after the
    422 error are the singletons before the call. *)
Theorem batch_failure_unchanged (req : BatchFrameRequest) w e w' :
  analyze_batch' req w = (Raise e, w') ->
  w' = w /\ e = mkHTTPException 422 "No faces detected in any frame".
Proof.
  rewrite analyze_batch_eq. cbv zeta.
  pose proof (batch_loop_none imdecode decode_error Face
                preprocess_frame predict Checker
                temporal_update (batch_session_id req) (frames req) w) as Hnone.
  destruct (analyze_batch_loop' _ _ [] w) as [rs w1]. cbn [fst snd] in *.
  destruct rs as [|r0 rs]; [| done]. intros [= <- <-].
  split; [by apply Hnone | done].
Qed.

(** Two batches for one session id run one after the other. *)
Lemma batch_app sid frames1 frames2 w res1 w1 res2 w2 :
  analyze_batch' {| frames := frames1; batch_session_id := sid |} w
    = (Return res1, w1) ->
  analyze_batch' {| frames := frames2; batch_session_id := sid |} w1
    = (Return res2, w2) ->
  exists res,
    analyze_batch' {| frames := frames1 ++ frames2; batch_session_id := sid |} w
      = (Return res, w2)
    /\ results res = results res1 ++ results res2.
Proof.
  intros H1 H2. rewrite analyze_batch_eq in H1, H2. rewrite analyze_batch_eq.
  cbv zeta in *. cbn [frames batch_session_id] in *.
  rewrite batch_loop_app.
  destruct (analyze_batch_loop' sid frames1 [] w) as [rs1 w1'].
  cbn [fst snd] in *.
  destruct rs1 as [|r1 rs1]; [done |]. injection H1 as <- <-.
  rewrite (batch_loop_acc imdecode decode_error Face
             preprocess_frame predict Checker
             temporal_update sid frames2 (r1 :: rs1) w1').
  destruct (analyze_batch_loop' sid frames2 [] w1') as [rs2 w2'].
  cbn [fst snd] in *.
  destruct rs2 as [|r2 rs2]; [done |]. injection H2 as <- <-.
  cbn [results app]. eexists. split; reflexivity.
Qed.

End BatchTheorems.

(** X15.  Batches compose: when a batch over some frames returns and a
    second batch for the same session id, run next, returns too, one batch
    over the frames of both returns the results of the first followed by
    those of the second and ends in the same state. *)
Theorem batch_composition
    (imdecode : string -> option Frame)
    (decode_error : string -> string) (Face : Type)
    (preprocess_frame : Frame -> option Face * option BBox)
    (predict : Face -> R) (Checker : Type)
    (temporal_update : Checker -> string -> R -> Z -> R * Checker)
    (sid : string) (frames1 frames2 : list FrameRequest)
    (w w1 w2 : Singletons Checker) (res1 res2 : BatchAnalysisResult) :
  analyze_batch imdecode decode_error Face
    preprocess_frame predict Checker temporal_update
    (mkBatchFrameRequest frames1 sid) w = (Return res1, w1) ->
  analyze_batch imdecode decode_error Face
    preprocess_frame predict Checker temporal_update
    (mkBatchFrameRequest frames2 sid) w1 = (Return res2, w2) ->
  exists res,
    analyze_batch imdecode decode_error Face
      preprocess_frame predict Checker temporal_update
      (mkBatchFrameRequest (frames1 ++ frames2) sid) w = (Return res, w2)
    /\ results res = results res1 ++ results res2.
Proof.
  apply batch_app.
Qed.


(** *** The batch theorems on the stand-in collaborators *)

Lemma batch_mixed_returns :
  exists res w', analyze_batch0 batch_mixed world0 = (Return res, w').
Proof.
  destruct (analyze_batch0 batch_mixed world0) as [o w'] eqn:E.
  pose proof (analyze_batch_response imdecode0 decode_error0 Frame
                preprocess0 predict0 _ temporal0 batch_mixed world0) as Ho.
  unfold analyze_batch0 in E. rewrite E in Ho. cbn [fst] in Ho.
  pose proof batch_mixed_scores as Hsc.
  cbn [batch_session_id batch_mixed] in *.
  destruct (returned _) as [|r0 rs]; [done |].
  rewrite Ho. eauto.
Qed.

Lemma batch_nofaces_raises :
  exists e w', analyze_batch0 batch_nofaces world0 = (Raise e, w').
Proof.
  destruct (analyze_batch0 batch_nofaces world0) as [o w'] eqn:E.
  pose proof (analyze_batch_response imdecode0 decode_error0 Frame
                preprocess0 predict0 _ temporal0 batch_nofaces world0) as Ho.
  unfold analyze_batch0 in E. rewrite E in Ho. cbn [fst] in Ho.
  cbn [batch_session_id batch_nofaces] in Ho.
  rewrite batch_nofaces_outcomes in Ho. rewrite Ho. eauto.
Qed.

Lemma batch_single
    (imdecode : string -> option Frame)
    (decode_error : string -> string) (Face : Type)
    (preprocess_frame : Frame -> option Face * option BBox)
    (predict : Face -> R) (Checker : Type)
    (temporal_update : Checker -> string -> R -> Z -> R * Checker)
    (f : FrameRequest) (sid : string) w r w1 :
  analyze_frame imdecode decode_error Face
    preprocess_frame predict Checker temporal_update
    (set_session_id f sid) w = (Return r, w1) ->
  exists res,
    analyze_batch imdecode decode_error Face
      preprocess_frame predict Checker temporal_update
      {| frames := [f]; batch_session_id := sid |} w = (Return res, w1)
    /\ results res = [r].
Proof.
  intros E. rewrite analyze_batch_eq. cbv zeta.
  cbn [frames batch_session_id analyze_batch_loop]. rewrite E.
  cbn [fst snd app]. eexists. split; reflexivity.
Qed.

Lemma batch_mixed_outcomes :
  exists r1 r2 r3,
    frame_outcomes imdecode0 decode_error0 Frame preprocess0 predict0 _
      temporal0 "s" (frames batch_mixed) world0
    = [Return r1; Raise (mkHTTPException 422 "No face detected in frame");
       Return r2; Raise (mkHTTPException 422 "No face detected in frame");
       Return r3].
Proof.
  cbn [frames batch_mixed frame_outcomes].
  assert (L0 : (len (session_of (_ppg_analyzer world0) "s") = 0)%nat)
    by (cbn [_ppg_analyzer world0]; by rewrite session_of_init).
  destruct (step0_face (set_session_id (req_a 0) "s") world0 "2"
              eq_refl eq_refl) as (r1 & w1 & E1 & _ & L1);
    [cbn [session_id set_session_id]; lia |].
  unfold analyze_frame0 in E1. rewrite E1.
  cbn [session_id set_session_id] in L1. rewrite L0 in L1.
  pose proof (step0_noface (set_session_id (req_noface 1) "s") w1 eq_refl) as N1.
  unfold analyze_frame0 in N1. rewrite N1.
  destruct (step0_face (set_session_id (req_a 2) "s") w1 "2"
              eq_refl eq_refl) as (r2 & w2 & E2 & _ & L2);
    [cbn [session_id set_session_id]; lia |].
  unfold analyze_frame0 in E2. rewrite E2.
  cbn [session_id set_session_id] in L2. rewrite L1 in L2.
  pose proof (step0_noface (set_session_id (req_noface 3) "s") w2 eq_refl) as N2.
  unfold analyze_frame0 in N2. rewrite N2.
  destruct (step0_face (set_session_id (req_b 4) "s") w2 "d"
              eq_refl eq_refl) as (r3 & w3 & E3 & _ & L3);
    [cbn [session_id set_session_id]; lia |].
  unfold analyze_frame0 in E3. rewrite E3.
  by exists r1, r2, r3.
Qed.

Lemma batch_results_in_order_witness :
  exists res w',
    analyze_batch0 batch_mixed world0 = (Return res, w')
    /\ map res_frame_number (results res) = [0; 2; 4]%Z.
Proof.
  destruct batch_mixed_returns as (res & w' & E).
  exists res, w'. split; [exact E |].
  destruct (batch_results_in_order imdecode0 decode_error0 Frame preprocess0
              predict0 _ temporal0 batch_mixed world0 res w' E)
    as (_ & _ & Hnum & _).
  rewrite Hnum. destruct batch_mixed_outcomes as (r1 & r2 & r3 & Ho).
  cbn [batch_session_id batch_mixed] in *. rewrite Ho. reflexivity.
Defined.

Lemma batch_scores_unit_witness :
  exists res w',
    analyze_batch0 batch_mixed world0 = (Return res, w')
    /\ 0 <= avg_combined_score res <= 1.
Proof.
  destruct batch_mixed_returns as (res & w' & E).
  exists res, w'. split; [exact E |].
  exact (proj2 (batch_scores_unit imdecode0 decode_error0 Frame
                  preprocess0 predict0 _ temporal0 batch_mixed world0 res w'
                  predict0_unit temporal0_unit E)).
Defined.

Lemma batch_failure_unchanged_witness :
  exists e, analyze_batch0 batch_nofaces world0 = (Raise e, world0).
Proof.
  destruct batch_nofaces_raises as (e & w' & E).
  destruct (batch_failure_unchanged imdecode0 decode_error0 Frame
              preprocess0 predict0 _
              temporal0 batch_nofaces world0 e w' E) as [Hw _].
  exists e. rewrite Hw in E. exact E.
Defined.

Lemma batch_composition_witness :
  exists res w2,
    analyze_batch0 {| frames := [req_a 0] ++ [req_b 1]; batch_session_id := "s" |}
      world0 = (Return res, w2)
    /\ length (results res) = 2%nat.
Proof.
  destruct (step0_face (set_session_id (req_a 0) "s") world0 "2"
              eq_refl eq_refl) as (r1 & w1 & E1 & _ & L1).
  { cbn [_ppg_analyzer world0 session_id set_session_id].
    rewrite session_of_init. cbn. lia. }
  cbn [_ppg_analyzer world0 session_id set_session_id] in L1.
  rewrite session_of_init in L1.
  destruct (step0_face (set_session_id (req_b 1) "s") w1 "d"
              eq_refl eq_refl) as (r2 & w2 & E2 & _).
  { cbn [session_id set_session_id]. rewrite L1. cbn. lia. }
  destruct (batch_single _ _ _ _ _ _ _ _ _ _ _ _ E1) as (res1 & B1 & R1).
  destruct (batch_single _ _ _ _ _ _ _ _ _ _ _ _ E2) as (res2 & B2 & R2).
  destruct (batch_composition imdecode0 decode_error0 Frame
    preprocess0 predict0 _ temporal0
              "s" [req_a 0] [req_b 1] world0 w1 w2 res1 res2 B1 B2)
    as (res & B & Rs).
  exists res, w2. split; [exact B |]. by rewrite Rs, R1, R2.
Defined.

(** ** The classifier wrapper *)

(** X16.  [DeepfakeModel.predict] returns a value between 0 and 1, for any
    network and any face; it is at least one half when the logit of class 1
    (fake) is at least the logit of class 0 (real), and at most one half
    when it is at most that logit. *)
Theorem predict_is_probability {Face Tensor : Type}
    (_TRANSFORM : Face -> Tensor) (model : Tensor -> R * R) (face_rgb : Face) :
  let p := DeepfakeModel_predict _TRANSFORM model face_rgb in
  let logits := model (_TRANSFORM face_rgb) in
  0 <= p <= 1
  /\ (logits.1 <= logits.2 -> 1 / 2 <= p)
  /\ (logits.2 <= logits.1 -> p <= 1 / 2).
Proof.
  intros p logits. subst p. unfold DeepfakeModel_predict, softmax2. fold logits.
  cbn [fst snd].
  pose proof (exp_pos logits.1) as H0. pose proof (exp_pos logits.2) as H1.
  assert (Hmono : forall a b, a <= b -> exp a <= exp b).
  { intros a b [Hlt | ->]; [left; by apply exp_increasing | right; done]. }
  pose proof (Hmono logits.1 logits.2) as H01.
  pose proof (Hmono logits.2 logits.1) as H10.
  set (e0 := exp logits.1) in *. set (e1 := exp logits.2) in *.
  assert (Hz : 0 < e0 + e1) by lra.
  assert (Hdiv : forall a, a / (e0 + e1) * (e0 + e1) = a)
    by (intros a; field; lra).
  assert (Hle : forall a c, a <= c * (e0 + e1) -> a / (e0 + e1) <= c).
  { intros a c H. apply (Rmult_le_reg_r (e0 + e1)); [done |]. by rewrite Hdiv. }
  assert (Hge : forall a c, c * (e0 + e1) <= a -> c <= a / (e0 + e1)).
  { intros a c H. apply (Rmult_le_reg_r (e0 + e1)); [done |]. by rewrite Hdiv. }
  split; [split; [apply Hge | apply Hle]; lra |].
  split; intros H.
  - apply Hge. specialize (H01 H). lra.
  - apply Hle. specialize (H10 H). lra.
Qed.

Lemma predict_is_probability_witness :
  (0 <= 1) /\ 1 / 2 <= DeepfakeModel_predict (fun x : unit => x)
                         (fun _ : unit => (0, 1)) tt.
Proof.
  split; [lra |].
  apply (proj1 (proj2 (predict_is_probability (fun x : unit => x)
                         (fun _ : unit => (0, 1)) tt))).
  cbn [fst snd]. lra.
Defined.

(** ** Dataset preparation: the split of the videos *)

Lemma int_train (n : Z) : int (inject_Z n * TRAIN_SPLIT) = Z.quot (n * 80) 100.
Proof. reflexivity. Qed.

Lemma int_val (n : Z) : int (inject_Z n * VAL_SPLIT) = Z.quot (n * 10) 100.
Proof. reflexivity. Qed.

(** X17.  [split_list] partitions the shuffled list: the train, validation
    and test parts, in this order, make up the shuffled list, so when the
    shuffle is a permutation no video is lost or put in two splits.  The
    parts hold floor(0.8 n), floor(0.1 n) and the remaining videos; the
    test part is never empty for a non-empty list, while the validation
    part is empty below ten videos and the train part below two. *)
Theorem split_list_partition {A} (shuffle : list A -> list A) (lst : list A) :
  shuffle lst ≡ₚ lst ->
  let s := split_list shuffle lst in
  let n := Z.of_nat (length lst) in
  train s ++ val s ++ test s = shuffle lst
  /\ train s ++ val s ++ test s ≡ₚ lst
  /\ Z.of_nat (length (train s)) = (n * 80 / 100)%Z
  /\ Z.of_nat (length (val s)) = (n / 10)%Z
  /\ Z.of_nat (length (test s)) = (n - n * 80 / 100 - n / 10)%Z
  /\ (lst <> [] -> test s <> [])
  /\ (val s = [] <-> n < 10)%Z
  /\ (train s = [] <-> n < 2)%Z.
Proof.
  intros Hperm s n.
  assert (Hn : Z.of_nat (length (shuffle lst)) = n)
    by (unfold n; by rewrite Hperm).
  subst s. unfold split_list. cbn [train val test]. rewrite Hn.
  rewrite int_train, int_val.
  assert (0 <= n)%Z by (unfold n; lia).
  rewrite !Z.quot_div_nonneg by lia.
  set (t := (n * 80 / 100)%Z). set (v := (n * 10 / 100)%Z).
  assert (Hv : v = (n / 10)%Z).
  { unfold v. rewrite <- (Z.div_div _ 10 10) by lia. by rewrite Z.div_mul. }
  assert (Ht : (0 <= t /\ 100 * t <= n * 80 < 100 * t + 100)%Z).
  { unfold t. pose proof (Z.div_mod (n * 80) 100 ltac:(lia)).
    pose proof (Z.mod_pos_bound (n * 80) 100 ltac:(lia)).
    split; [apply Z.div_pos; lia | lia]. }
  assert (Hv' : (0 <= v /\ 10 * v <= n < 10 * v + 10)%Z).
  { rewrite Hv. pose proof (Z.div_mod n 10 ltac:(lia)).
    pose proof (Z.mod_pos_bound n 10 ltac:(lia)).
    split; [apply Z.div_pos; lia | lia]. }
  set (l := shuffle lst) in *.
  assert (Hl : length l = Z.to_nat n) by lia.
  unfold slice_between, slice_from. rewrite drop_0.
  replace (Z.to_nat t - Z.to_nat 0)%nat with (Z.to_nat t) by lia.
  replace (Z.to_nat (t + v) - Z.to_nat t)%nat with (Z.to_nat v) by lia.
  replace (Z.to_nat (t + v)) with (Z.to_nat t + Z.to_nat v)%nat by lia.
  assert (Hlt : length (take (Z.to_nat t) l) = Z.to_nat t)
    by (rewrite length_take; lia).
  assert (Hlv : length (take (Z.to_nat v) (drop (Z.to_nat t) l)) = Z.to_nat v)
    by (rewrite length_take, length_drop; lia).
  assert (Hlr : length (drop (Z.to_nat t + Z.to_nat v) l)
                = (Z.to_nat n - Z.to_nat t - Z.to_nat v)%nat)
    by (rewrite length_drop; lia).
  assert (Heq : take (Z.to_nat t) l
                ++ take (Z.to_nat v) (drop (Z.to_nat t) l)
                ++ drop (Z.to_nat t + Z.to_nat v) l = l).
  { rewrite <- drop_drop, take_drop. apply take_drop. }
  split; [exact Heq |]. split; [by rewrite Heq |].
  split; [lia |]. split; [lia |]. split; [lia |].
  split; [| split].
  - intros Hne Hnil. apply (f_equal length) in Hnil. rewrite Hlr in Hnil.
    cbn in Hnil. assert (n <> 0)%Z by (unfold n; destruct lst; [done | cbn; lia]).
    lia.
  - split.
    + intros Hnil. apply (f_equal length) in Hnil. rewrite Hlv in Hnil.
      cbn in Hnil. lia.
    + intros Hlt10. apply length_zero_iff_nil. rewrite Hlv. lia.
  - split.
    + intros Hnil. apply (f_equal length) in Hnil. rewrite Hlt in Hnil.
      cbn in Hnil. lia.
    + intros Hlt2. apply length_zero_iff_nil. rewrite Hlt. lia.
Qed.

Lemma split_list_partition_witness :
  let s := split_list reverse [1; 2; 3; 4; 5; 6; 7; 8; 9; 10; 11]%Z in
  train s ++ val s ++ test s ≡ₚ [1; 2; 3; 4; 5; 6; 7; 8; 9; 10; 11]%Z
  /\ Z.of_nat (length (train s)) = 8%Z.
Proof.
  intros s.
  pose proof (split_list_partition reverse [1; 2; 3; 4; 5; 6; 7; 8; 9; 10; 11]%Z
                (reverse_Permutation _)) as (_ & Hp & Ht & _).
  split; [exact Hp | exact Ht].
Defined.

(** ** Dataset preparation: the frames taken from a video *)

Lemma range0_length (stop step : Z) :
  length (range0 stop step) = Z.to_nat ((stop + step - 1) / step).
Proof. unfold range0. by rewrite length_map, length_seq. Qed.

Lemma range0_bounds (stop step : Z) :
  (1 <= step)%Z ->
  Forall (fun fi => 0 <= fi < stop /\ (step | fi))%Z (range0 stop step).
Proof.
  intros Hstep. unfold range0. apply List.Forall_map, List.Forall_forall.
  intros i Hi. apply in_seq in Hi.
  pose proof (Z.mul_div_le (stop + step - 1) step ltac:(lia)) as Hle.
  split; [| by apply Z.divide_factor_r].
  split; [lia |].
  assert (Hc : (Z.of_nat i + 1 <= (stop + step - 1) / step)%Z) by lia.
  nia.
Qed.

Lemma slice_to_sub {A} (P : A -> Prop) (l : list A) (m : Z) :
  Forall P l -> Forall P (slice_to l m).
Proof. intros Hl. unfold slice_to. case_decide; by apply Forall_take. Qed.

Lemma slice_to_length {A} (l : list A) (m : Z) :
  (0 <= m)%Z -> (length (slice_to l m) <= Z.to_nat m)%nat.
Proof.
  intros Hm. unfold slice_to. case_decide; [| lia].
  rewrite length_take. lia.
Qed.

(** The indices visited for a positive [max_frames]. *)
Lemma frame_indices_some (total_frames max_frames : Z) :
  (0 < max_frames)%Z ->
  let step := Z.max 1 (total_frames / max_frames) in
  exists idxs,
    frame_indices total_frames max_frames = Some idxs
    /\ (length idxs <= Z.to_nat max_frames)%nat
    /\ Forall (fun fi => 0 <= fi < total_frames /\ (step | fi))%Z idxs
    /\ (0 < total_frames -> head idxs = Some 0%Z)%Z
    /\ frame_indices total_frames 0 = None.
Proof.
  intros Hmax step. unfold frame_indices.
  case_decide; [lia |]. fold step.
  eexists. split; [reflexivity |].
  split; [apply slice_to_length; lia |].
  split; [apply slice_to_sub, range0_bounds; unfold step; lia |].
  split; [| by case_decide].
  intros Htot. unfold slice_to. case_decide; [| lia].
  unfold range0.
  assert (Hc : (1 <= (total_frames + step - 1) / step)%Z).
  { apply Z.div_le_lower_bound; unfold step; lia. }
  destruct (Z.to_nat ((total_frames + step - 1) / step)) as [|c] eqn:Ec; [lia |].
  destruct (Z.to_nat max_frames) as [|m] eqn:Em; [lia |].
  done.
Qed.

(** X18.  The frames visited in a video: with a positive [max_frames] the
    visited indices are at most [max_frames] many, each inside the video and
    a multiple of the step [max(1, total_frames // max_frames)]; a
    non-empty video is always visited at frame 0.  With [max_frames = 0]
    the division raises. *)
Theorem frame_indices_bounds (total_frames max_frames : Z) :
  (0 < max_frames)%Z ->
  let step := Z.max 1 (total_frames / max_frames) in
  exists idxs,
    frame_indices total_frames max_frames = Some idxs
    /\ (length idxs <= Z.to_nat max_frames)%nat
    /\ Forall (fun fi => 0 <= fi < total_frames /\ (step | fi))%Z idxs
    /\ (0 < total_frames -> head idxs = Some 0%Z)%Z
    /\ frame_indices total_frames 0 = None.
Proof.
  apply frame_indices_some.
Qed.

Lemma frame_indices_bounds_witness :
  exists idxs,
    frame_indices 250 100 = Some idxs
    /\ (length idxs <= 100)%nat
    /\ head idxs = Some 0%Z.
Proof.
  destruct (frame_indices_bounds 250 100 ltac:(lia))
    as (idxs & E & Hlen & _ & Hhead & _).
  exists idxs. split; [exact E |]. split; [exact Hlen |]. apply Hhead. lia.
Defined.

(** X19.  A video with fewer than twice [max_frames] frames is sampled with
    step 1 from its start: the visited frames are exactly the first
    [min(total_frames, max_frames)] ones, so the frames beyond
    [max_frames] are never visited. *)
Theorem frame_indices_short_video (total_frames max_frames : Z) :
  (0 < max_frames)%Z ->
  (0 <= total_frames < 2 * max_frames)%Z ->
  frame_indices total_frames max_frames
  = Some (map Z.of_nat (seq 0 (Z.to_nat (Z.min total_frames max_frames)))).
Proof.
  intros Hmax Htot. unfold frame_indices. case_decide; [lia |].
  assert (Hstep : Z.max 1 (total_frames / max_frames) = 1%Z).
  { assert (total_frames / max_frames < 2)%Z
      by (apply Z.div_lt_upper_bound; lia).
    lia. }
  rewrite Hstep. unfold slice_to, range0. case_decide; [| lia].
  f_equal.
  replace (total_frames + 1 - 1)%Z with total_frames by lia.
  rewrite Z.div_1_r, List.firstn_map, take_seq.
  rewrite Z2Nat.inj_min, (Nat.min_comm (Z.to_nat total_frames)).
  apply map_ext. intros i. lia.
Qed.

Lemma frame_indices_short_video_witness :
  frame_indices 150 100 = Some (map Z.of_nat (seq 0 (Z.to_nat (Z.min 150 100)))).
Proof.
  apply (frame_indices_short_video 150 100); lia.
Defined.

Section ExtractFacesFacts.

Context {Image Face : Type}.
Context (read : Z -> option Image) (extract_face : Image -> option Face).
Context (resize : Face -> Face) (augmenter : option (Face -> Face)).
Context (vid_id : string) (label : Z) (split : string).

Local Abbreviation visit :=
  (visit_frame read extract_face resize augmenter vid_id label split).
Local Abbreviation originals files :=
  (Z.of_nat (length (filter (fun f : SavedFile Face => sf_aug f = false) files))).
Local Abbreviation augmented files :=
  (Z.of_nat (length (filter (fun f : SavedFile Face => sf_aug f = true) files))).
Local Abbreviation augmenting :=
  (split = "train" /\ augmenter <> None).

Lemma originals_snoc (files : list (SavedFile Face)) f :
  originals (files ++ [f])
  = (originals files + if sf_aug f then 0 else 1)%Z.
Proof.
  rewrite filter_app, length_app, filter_cons, filter_nil.
  destruct (sf_aug f); case_decide; try done; cbn [length]; lia.
Qed.

Lemma augmented_snoc (files : list (SavedFile Face)) f :
  augmented (files ++ [f])
  = (augmented files + if sf_aug f then 1 else 0)%Z.
Proof.
  rewrite filter_app, length_app, filter_cons, filter_nil.
  destruct (sf_aug f); case_decide; try done; cbn [length]; lia.
Qed.

Lemma visit_frame_step (P : Z -> Prop) saved files fi :
  P fi ->
  Forall (fun f => P (sf_index f) /\ sf_split f = split /\ sf_label f = label
                   /\ sf_vid_id f = vid_id) files ->
  saved = originals files ->
  augmented files = (if decide augmenting then saved else 0)%Z ->
  let st := visit (saved, files) fi in
  (saved <= st.1 <= saved + 1)%Z
  /\ Forall (fun f => P (sf_index f) /\ sf_split f = split /\ sf_label f = label
                      /\ sf_vid_id f = vid_id) st.2
  /\ st.1 = originals st.2
  /\ augmented st.2 = (if decide augmenting then st.1 else 0)%Z.
Proof.
  intros Hfi Hall Hsaved Haug. unfold visit_frame. cbv beta in *.
  destruct (read fi) as [frame|];
    [| cbn [fst snd]; split; [lia | done]].
  destruct (extract_face frame) as [face|];
    [| cbn [fst snd]; split; [lia | done]].
  set (fo := mkSavedFile split label vid_id fi false (resize face) 95).
  assert (Hfo : Forall (fun f => P (sf_index f) /\ sf_split f = split
                                 /\ sf_label f = label /\ sf_vid_id f = vid_id)
                  (files ++ [fo])).
  { apply Forall_app. split; [done |]. by repeat constructor. }
  assert (Ho : originals (files ++ [fo]) = (saved + 1)%Z).
  { rewrite originals_snoc. cbn [sf_aug fo]. lia. }
  assert (Ha : augmented (files ++ [fo]) = augmented files).
  { rewrite augmented_snoc. cbn [sf_aug fo]. lia. }
  destruct augmenter as [aug|].
  - destruct (decide (split = "train")) as [Hs|Hs]; cbn [fst snd].
    + set (fa := mkSavedFile split label vid_id fi true (aug (resize face)) 90).
      split; [lia |]. split.
      { apply Forall_app. split; [done |]. by repeat constructor. }
      rewrite originals_snoc, augmented_snoc. cbn [sf_aug fa].
      rewrite Ho, Ha, Haug.
      case_decide as Hd; [split; lia | exfalso; apply Hd; by split].
    + split; [lia |]. split; [done |]. rewrite Ho, Ha, Haug.
      case_decide as Hd; [by destruct Hd | split; lia].
  - cbn [fst snd]. split; [lia |]. split; [done |]. rewrite Ho, Ha, Haug.
    case_decide as Hd; [by destruct Hd as [_ Hd] | split; lia].
Qed.

Lemma visit_frames_inv (P : Z -> Prop) idxs :
  Forall P idxs ->
  forall saved files,
    Forall (fun f => P (sf_index f) /\ sf_split f = split /\ sf_label f = label
                     /\ sf_vid_id f = vid_id) files ->
    saved = originals files ->
    augmented files = (if decide augmenting then saved else 0)%Z ->
    let st := foldl visit (saved, files) idxs in
    (saved <= st.1 <= saved + Z.of_nat (length idxs))%Z
    /\ Forall (fun f => P (sf_index f) /\ sf_split f = split /\ sf_label f = label
                        /\ sf_vid_id f = vid_id) st.2
    /\ st.1 = originals st.2
    /\ augmented st.2 = (if decide augmenting then st.1 else 0)%Z.
Proof.
  induction 1 as [|fi idxs Hfi _ IH]; intros saved files Hall Hsaved Haug.
  - cbn [foldl fst snd length]. repeat split; (done || lia).
  - cbn [foldl].
    destruct (visit_frame_step P saved files fi Hfi Hall Hsaved Haug)
      as (Hs & Hall' & Hsaved' & Haug').
    destruct (visit (saved, files) fi) as [saved' files']. cbn [fst snd] in *.
    destruct (IH saved' files' Hall' Hsaved' Haug') as (Hs2 & ? & ? & ?).
    repeat split; try done; cbn [length]; lia.
Qed.

End ExtractFacesFacts.

(** X20.  With a positive [max_frames], [extract_faces_from_video] returns
    normally; the number it returns is the number of original (not
    augmented) images written, it is at most [max_frames], and every file
    written belongs to a frame inside the video and carries the split,
    label and video id of the call.  A video without frames gives 0 and no
    file, whatever [max_frames]; a video with frames and [max_frames = 0]
    raises. *)
Theorem extract_faces_saved {Image Face : Type}
    (read : Z -> option Image) (extract_face : Image -> option Face)
    (resize : Face -> Face) (augmenter : option (Face -> Face))
    (total_frames max_frames : Z) (vid_id : string) (label : Z)
    (split : string) :
  (0 < max_frames)%Z ->
  (exists saved files,
      extract_faces_from_video read extract_face resize augmenter
        total_frames max_frames vid_id label split = Some (saved, files)
      /\ (0 <= saved <= max_frames)%Z
      /\ saved = Z.of_nat (length (filter (fun f => sf_aug f = false) files))
      /\ Forall (fun f => (0 <= sf_index f < total_frames)%Z
                          /\ sf_split f = split /\ sf_label f = label
                          /\ sf_vid_id f = vid_id) files)
  /\ (forall m, extract_faces_from_video read extract_face resize augmenter
                  0 m vid_id label split = Some (0%Z, []))
  /\ (total_frames <> 0%Z ->
      extract_faces_from_video read extract_face resize augmenter
        total_frames 0 vid_id label split = None).
Proof.
  intros Hmax. split; [| split].
  - unfold extract_faces_from_video. case_decide as Htot.
    + exists 0%Z, []. repeat split; (done || lia).
    + destruct (frame_indices_some total_frames max_frames Hmax)
        as (idxs & -> & Hlen & Hidx & _).
      pose proof (visit_frames_inv read extract_face resize augmenter vid_id
                    label split (fun fi => 0 <= fi < total_frames)%Z idxs)
        as Hinv.
      specialize (Hinv ltac:(eapply Forall_impl; [exact Hidx | by intros ? [? _]])
                    0%Z [] ltac:(constructor) ltac:(done)
                    ltac:(by case_decide)).
      cbv zeta in Hinv.
      destruct (foldl _ _ idxs) as [saved files]. cbn [fst snd] in Hinv.
      destruct Hinv as (Hs & Hall & Ho & _).
      exists saved, files. repeat split; (done || lia).
  - intros m. unfold extract_faces_from_video. by case_decide.
  - intros Htot. unfold extract_faces_from_video, frame_indices.
    case_decide; [done |]. by case_decide.
Qed.

(** X21.  Augmented copies are written for the train split only: a call
    for the train split with an augmenter writes exactly one augmented
    image per saved face; any other call writes none. *)
Theorem augmentation_only_for_train {Image Face : Type}
    (read : Z -> option Image) (extract_face : Image -> option Face)
    (resize : Face -> Face) (augmenter : option (Face -> Face))
    (total_frames max_frames : Z) (vid_id : string) (label : Z)
    (split : string) saved files :
  extract_faces_from_video read extract_face resize augmenter
    total_frames max_frames vid_id label split = Some (saved, files) ->
  Z.of_nat (length (filter (fun f => sf_aug f = true) files))
  = (if decide (split = "train" /\ augmenter <> None) then saved else 0)%Z
  /\ Z.of_nat (length files)
     = (if decide (split = "train" /\ augmenter <> None)
        then 2 * saved else saved)%Z.
Proof.
  unfold extract_faces_from_video. case_decide as Htot.
  - intros [= <- <-]. cbn. by case_decide.
  - destruct (frame_indices total_frames max_frames) as [idxs|]; [| done].
    pose proof (visit_frames_inv read extract_face resize augmenter vid_id
                  label split (fun _ => True) idxs) as Hinv.
    specialize (Hinv ltac:(by apply Forall_true) 0%Z [] ltac:(constructor)
                  ltac:(done) ltac:(by case_decide)).
    cbv zeta in Hinv. intros [= E]. rewrite E in Hinv. cbn [fst snd] in Hinv.
    destruct Hinv as (_ & _ & Ho & Ha).
    split; [exact Ha |].
    assert (Hsplit : Z.of_nat (length files)
                     = (Z.of_nat (length (filter (fun f => sf_aug f = false) files))
                        + Z.of_nat (length (filter (fun f => sf_aug f = true) files)))%Z).
    { clear. induction files as [|f files IH]; [done |].
      rewrite !filter_cons. cbn [length].
      destruct (sf_aug f); repeat case_decide; try done; cbn [length]; lia. }
    rewrite Hsplit, <- Ho, Ha. case_decide; lia.
Qed.

Lemma extract_faces_saved_witness :
  exists saved files,
    extract_faces_from_video (fun fi : Z => Some fi) (fun img : Z => Some img)
      (fun face => face) None 250 100 "clip" 1 "val" = Some (saved, files)
    /\ (0 <= saved <= 100)%Z.
Proof.
  destruct (proj1 (extract_faces_saved (fun fi : Z => Some fi)
                     (fun img : Z => Some img) (fun face => face) None
                     250 100 "clip" 1 "val" ltac:(lia)))
    as (saved & files & E & Hs & _).
  exists saved, files. split; [exact E | exact Hs].
Defined.

Lemma augmentation_only_for_train_witness :
  exists saved files,
    extract_faces_from_video (fun fi : Z => Some fi) (fun img : Z => Some img)
      (fun face => face) (Some (fun face => face)) 2 2 "clip" 1 "train"
    = Some (saved, files)
    /\ Z.of_nat (length files) = (2 * saved)%Z.
Proof.
  destruct (extract_faces_from_video (fun fi : Z => Some fi)
              (fun img : Z => Some img) (fun face => face)
              (Some (fun face => face)) 2 2 "clip" 1 "train")
    as [[saved files]|] eqn:E; [| by vm_compute in E].
  exists saved, files. split; [reflexivity |].
  destruct (augmentation_only_for_train _ _ _ _ _ _ _ _ _ _ _ E) as [_ Hlen].
  rewrite Hlen. case_decide as Hd; [done |].
  exfalso. apply Hd. by split.
Defined.

(** ** Dataset preparation: the crop around a detected face *)

Lemma int32_small (z : Z) :
  (-2147483648 <= z < 2147483648)%Z -> int32 z = z.
Proof. intros Hz. unfold int32. rewrite Z.mod_small; lia. Qed.

Lemma rect_area_inside (h_img w_img x y w h : Z) :
  (h_img < 2 ^ 15)%Z -> (w_img < 2 ^ 15)%Z ->
  inside_frame h_img w_img (x, y, w, h) ->
  rect_area (x, y, w, h) = (w * h)%Z.
Proof.
  intros Hh Hw (Hx & Hy & Hw0 & Hh0 & Hxw & Hyh).
  cbn [rect_area]. apply int32_small.
  assert (w <= 32767)%Z by lia. assert (h <= 32767)%Z by lia. nia.
Qed.

Lemma max_by_area_spec (faces : list Rect) :
  forall best,
    let m := max_by_area best faces in
    (m = best \/ In m faces)
    /\ (rect_area best <= rect_area m)%Z
    /\ Forall (fun r => rect_area r <= rect_area m)%Z faces.
Proof.
  induction faces as [|r faces IH]; intros best; cbn [max_by_area].
  - split; [by left |]. split; [lia | constructor].
  - case_decide as Hlt.
    + destruct (IH r) as ([-> | Hin] & Hle & Hall).
      * split; [right; by left |]. split; [lia |]. by constructor.
      * split; [right; by right |]. split; [lia |]. by constructor.
    + destruct (IH best) as ([-> | Hin] & Hle & Hall).
      * split; [by left |]. split; [lia |]. constructor; [lia | done].
      * split; [right; by right |]. split; [lia |]. constructor; [lia | done].
Qed.

Lemma int_pad (m : Z) : int (inject_Z m * 0.2%Q) = Z.quot (m * 2) 10.
Proof. reflexivity. Qed.

(** X22.  The crop of the OpenCV fallback, for a frame of fewer than 2^15
    rows and columns and detections that lie inside it (so that no 32-bit
    product or sum wraps around): nothing is returned exactly when nothing
    was detected; otherwise the box is built around a detection of maximal
    area [w * h], padded on each side by a fifth of its larger side
    (rounded down) and cut at the border of the frame, so that it contains
    the detection and never leaves the frame. *)
Theorem opencv_crop_box_sound (h_img w_img : Z) (faces : list Rect) :
  (h_img < 2 ^ 15)%Z -> (w_img < 2 ^ 15)%Z ->
  Forall (inside_frame h_img w_img) faces ->
  (opencv_crop_box h_img w_img faces = None <-> faces = [])
  /\ forall x1 y1 x2 y2,
       opencv_crop_box h_img w_img faces = Some (x1, y1, x2, y2) ->
       exists x y w h,
         In (x, y, w, h) faces
         /\ Forall (fun r : Rect => let '(_, _, w', h') := r in
                                    w' * h' <= w * h)%Z faces
         /\ (x1 = Z.max 0 (x - Z.max w h / 5)
             /\ y1 = Z.max 0 (y - Z.max w h / 5)
             /\ x2 = Z.min w_img (x + w + Z.max w h / 5)
             /\ y2 = Z.min h_img (y + h + Z.max w h / 5))%Z
         /\ (0 <= x1 <= x /\ 0 <= y1 <= y
             /\ x + w <= x2 <= w_img /\ y + h <= y2 <= h_img)%Z.
Proof.
  intros Hh Hw Hin. unfold opencv_crop_box. destruct faces as [|r0 rest].
  - split; [done |]. intros x1 y1 x2 y2 [=].
  - pose proof (max_by_area_spec rest r0) as (Hm & Hle & Hall).
    cbv zeta in *.
    assert (Hmin : In (max_by_area r0 rest) (r0 :: rest))
      by (destruct Hm as [-> | Hm]; [by left | by right]).
    assert (Hins : inside_frame h_img w_img (max_by_area r0 rest))
      by (rewrite Forall_forall in Hin; by apply Hin, list_elem_of_In).
    assert (Hareas : Forall (fun r => rect_area r
                                      <= rect_area (max_by_area r0 rest))%Z
                       (r0 :: rest)) by (by constructor).
    destruct (max_by_area r0 rest) as [[[x y] w] h] eqn:Em.
    split; [split; intros [=] |].
    rewrite int_pad.
    pose proof Hins as (Hx & Hy & Hw0 & Hh0 & Hxw & Hyh).
    replace (Z.quot (Z.max w h * 2) 10) with (Z.max w h / 5)%Z
      by (rewrite Z.quot_div_nonneg by lia;
          rewrite <- (Z.div_mul_cancel_r (Z.max w h) 5 2) by lia;
          reflexivity).
    assert (Hpad : (0 <= Z.max w h / 5 <= Z.max w h)%Z).
    { split; [apply Z.div_pos; lia |].
      apply Z.div_le_upper_bound; lia. }
    rewrite (int32_small (x - _)) by lia.
    rewrite (int32_small (y - _)) by lia.
    rewrite (int32_small (x + w)) by lia.
    rewrite (int32_small (y + h)) by lia.
    rewrite (int32_small (x + w + _)) by lia.
    rewrite (int32_small (y + h + _)) by lia.
    intros x1 y1 x2 y2 [= <- <- <- <-].
    exists x, y, w, h. split; [exact Hmin |].
    split; [| split; [done | lia]].
    rewrite (rect_area_inside h_img w_img x y w h Hh Hw Hins) in Hareas.
    rewrite Forall_forall in Hareas, Hin. apply Forall_forall.
    intros [[[x' y'] w'] h'] Hr.
    rewrite <- (rect_area_inside h_img w_img x' y' w' h' Hh Hw (Hin _ Hr)).
    by apply Hareas.
Qed.

Lemma opencv_crop_box_sound_witness :
  (480 < 2 ^ 15)%Z /\ (640 < 2 ^ 15)%Z
  /\ Forall (inside_frame 480 640) faces3
  /\ exists x y w h,
       In (x, y, w, h) faces3
       /\ Forall (fun r : Rect => let '(_, _, w', h') := r in
                                  w' * h' <= w * h)%Z faces3
       /\ (276 <= x /\ 76 <= y /\ x + w <= 444 /\ y + h <= 244)%Z.
Proof.
  assert (Hin : Forall (inside_frame 480 640) faces3)
    by (repeat constructor; cbn; lia).
  split; [lia |]. split; [lia |]. split; [exact Hin |].
  destruct (proj2 (opencv_crop_box_sound 480 640 faces3 ltac:(lia) ltac:(lia)
                     Hin) 276 76 444 244 eq_refl)%Z
    as (x & y & w & h & Hmem & Hmax & _ & Hbox).
  exists x, y, w, h. split; [exact Hmem |]. split; [exact Hmax | lia].
Defined.
